(** * The social post form: attachments, validation, submission, AI assist

    A shallow embedding of the [SocialMediaForm] component.  The three
    source files carry the same [formSchema], [handleImageUpload],
    [removeImage] and [onSubmit]; one of them adds [handleAIGenerate] and
    the modal that drives it.  The embedding follows that largest variant:
    React state hooks become fields of a [State] record, every handler is
    a function on [State], and the two [await fetch (...)] points split
    their handlers into the part that runs up to the request and the part
    that runs once the request has settled. *)

From Stdlib Require Import ZArith Lia List String Ascii DecimalString DecimalNat Bool.
From stdpp Require Import gmap strings list fin_maps.

Local Open Scope Z_scope.

(** ** JavaScript data *)

(** A JavaScript string is kept as a Rocq [string], one character per code
    unit, so that [String.length] is the [.length] of the source.  Code
    units above 255 are outside the model. *)

(** A [Date] object holds a time value in milliseconds since the epoch, or
    [NaN] when the date is invalid. *)
Inductive Date : Type :=
| DateOf (ms : Z)
| InvalidDate.

Definition getTime (d : Date) : option Z :=
  match d with
  | DateOf ms => Some ms
  | InvalidDate => None
  end.

(** Values as the form store and a parsed JSON body hold them at run time.
    Numbers are restricted to integers: the only operation the component
    applies to a number is the truthiness test. *)
#[warnings="-register-all"]
Inductive value : Type :=
| VUndefined
| VNull
| VBool (b : bool)
| VNum (n : Z)
| VStr (s : string)
| VArr (items : list value)
| VObj (props : list (string * value))
| VDate (d : Date).

(** [ToBoolean]: what [||] tests. *)
Definition truthy (v : value) : bool :=
  match v with
  | VUndefined | VNull => false
  | VBool b => b
  | VNum n => negb (n =? 0)
  | VStr s => negb (String.eqb s "")
  | VArr _ | VObj _ | VDate _ => true
  end.

(** [a || b] *)
Definition js_or (a b : value) : value := if truthy a then a else b.

(** Own-property lookup in a parsed JSON object: of two members with the
    same key the later one wins. *)
Fixpoint lookupProp (k : string) (props : list (string * value)) : option value :=
  match props with
  | [] => None
  | (k', v) :: rest =>
      match lookupProp k rest with
      | Some w => Some w
      | None => if String.eqb k k' then Some v else None
      end
  end.

(** [data.k] for a key [k] that no built-in prototype defines (such as
    [caption], [content] and [hashtags]): reading a property of [null] or
    [undefined] throws a [TypeError], here [None]; primitives, arrays and
    dates answer [undefined]. *)
Definition getProp (data : value) (k : string) : option value :=
  match data with
  | VUndefined | VNull => None
  | VObj props => Some (default VUndefined (lookupProp k props))
  | _ => Some VUndefined
  end.

(** ** Files and the attachment list *)

Module File.
Record t : Type := make { name : string; type : string; size : Z }.
End File.

Record Toast : Type := mkToast {
  title : string;
  description : string;
  destructive : bool
}.

Definition tooManyImages : Toast :=
  mkToast "Too many images" "You can upload a maximum of 4 images." true.

(** The predicate of the [files.filter] call in [handleImageUpload]. *)
Definition isValidFile (file : File.t) : bool :=
  (String.eqb (File.type file) "image/jpeg" || String.eqb (File.type file) "image/png")
  && (File.size file <=? 10 * 1024 * 1024).

(** [arr.filter((x, i) => p x i)], counting positions from [i0]. *)
Fixpoint filterFrom {A : Type} (p : A → nat → bool) (i0 : nat) (l : list A) : list A :=
  match l with
  | [] => []
  | x :: rest =>
      if p x i0 then x :: filterFrom p (S i0) rest else filterFrom p (S i0) rest
  end.

Definition filterIndexed {A : Type} (p : A → nat → bool) (l : list A) : list A :=
  filterFrom p 0%nat l.

(** ** Built-in serialisers used by [onSubmit] *)

Definition dquote : string := String (ascii_of_N 34) "".

Definition hexDigit (n : N) : ascii :=
  ascii_of_N (if (n <? 10)%N then 48 + n else 87 + n)%N.

(** [QuoteJSONString], one code unit at a time. *)
Definition quoteJSONChar (c : ascii) : string :=
  let n := N_of_ascii c in
  if (n =? 34)%N then "\" +:+ dquote
  else if (n =? 92)%N then "\\"
  else if (n =? 8)%N then "\b"
  else if (n =? 12)%N then "\f"
  else if (n =? 10)%N then "\n"
  else if (n =? 13)%N then "\r"
  else if (n =? 9)%N then "\t"
  else if (n <? 32)%N then
    "\u00" +:+ String (hexDigit (n / 16)) (String (hexDigit (n mod 16)) "")
  else String c "".

Fixpoint quoteJSONBody (s : string) : string :=
  match s with
  | EmptyString => ""
  | String c rest => quoteJSONChar c +:+ quoteJSONBody rest
  end.

Definition quoteJSONString (s : string) : string :=
  dquote +:+ quoteJSONBody s +:+ dquote.

Fixpoint joinWith (sep : string) (l : list string) : string :=
  match l with
  | [] => ""
  | [x] => x
  | x :: rest => x +:+ sep +:+ joinWith sep rest
  end.

(** [JSON.stringify] on an array of strings. *)
Definition JSON_stringify_strings (l : list string) : string :=
  "[" +:+ joinWith "," (map quoteJSONString l) +:+ "]".

(** [JSON.stringify({ prompt })] *)
Definition JSON_stringify_prompt (prompt : string) : string :=
  "{" +:+ quoteJSONString "prompt" +:+ ":" +:+ quoteJSONString prompt +:+ "}".

(** The [w] low decimal digits of [n], zero padded. *)
Fixpoint padDigits (w : nat) (n : Z) : string :=
  match w with
  | O => ""
  | S w' => padDigits w' (n / 10) +:+ String (ascii_of_N (48 + Z.to_N (n mod 10))) ""
  end.

(** Year, month and day of the proleptic Gregorian calendar for a day
    number counted from 1970-01-01. *)
Definition civilFromDays (days : Z) : Z * Z * Z :=
  let z := days + 719468 in
  let era := z / 146097 in
  let doe := z - era * 146097 in
  let yoe := (doe - doe / 1460 + doe / 36524 - doe / 146096) / 365 in
  let doy := doe - (365 * yoe + yoe / 4 - yoe / 100) in
  let mp := (5 * doy + 2) / 153 in
  let d := doy - (153 * mp + 2) / 5 + 1 in
  let m := if mp <? 10 then mp + 3 else mp - 9 in
  let y := yoe + era * 400 + (if m <=? 2 then 1 else 0) in
  (y, m, d).

Definition isoYear (y : Z) : string :=
  if (0 <=? y) && (y <=? 9999) then padDigits 4 y
  else (if y <? 0 then "-" else "+") +:+ padDigits 6 (Z.abs y).

(** [Date.prototype.toISOString]; an invalid date throws a [RangeError],
    here [None]. *)
Definition toISOString (d : Date) : option string :=
  match getTime d with
  | None => None
  | Some t =>
      let days := t / 86400000 in
      let ms := t mod 86400000 in
      let '(y, m, dd) := civilFromDays days in
      Some (isoYear y +:+ "-" +:+ padDigits 2 m +:+ "-" +:+ padDigits 2 dd
            +:+ "T" +:+ padDigits 2 (ms / 3600000)
            +:+ ":" +:+ padDigits 2 (ms / 60000 mod 60)
            +:+ ":" +:+ padDigits 2 (ms / 1000 mod 60)
            +:+ "." +:+ padDigits 3 (ms mod 1000) +:+ "Z")
  end.

(** The template literal [`image_${index}`]. *)
Definition imageKey (index : nat) : string :=
  "image_" +:+ NilEmpty.string_of_uint (Nat.to_uint index).


(** ** The validation library, as far as [formSchema] uses it

    Each schema is a function from a path and a run-time value to the
    issues it raises and the parsed output.  Checks never stop at the first
    failure: every check of a string runs, and every key of an object is
    parsed. *)

Inductive ZodParsedType : Type :=
| zt_undefined | zt_null | zt_boolean | zt_number | zt_string
| zt_array | zt_object | zt_date.

Definition getParsedType (v : value) : ZodParsedType :=
  match v with
  | VUndefined => zt_undefined
  | VNull => zt_null
  | VBool _ => zt_boolean
  | VNum _ => zt_number
  | VStr _ => zt_string
  | VArr _ => zt_array
  | VObj _ => zt_object
  | VDate _ => zt_date
  end.

Definition parsedTypeName (t : ZodParsedType) : string :=
  match t with
  | zt_undefined => "undefined"
  | zt_null => "null"
  | zt_boolean => "boolean"
  | zt_number => "number"
  | zt_string => "string"
  | zt_array => "array"
  | zt_object => "object"
  | zt_date => "date"
  end.

Inductive ZodIssueCode : Type :=
| invalid_type | too_small | too_big | invalid_string | invalid_date.

Inductive PathSeg : Type :=
| Key (k : string)
| Index (i : nat).

Record ZodIssue : Type := mkIssue {
  code : ZodIssueCode;
  path : list PathSeg;
  message : string
}.

Definition ParseReturn (A : Type) : Type := (list ZodIssue * option A)%type.

(** The message of an [invalid_type] issue: the library default, unless the
    schema was given a [required_error] and the input is [undefined]. *)
Definition invalidTypeMessage (required_error : option string)
    (expected : ZodParsedType) (v : value) : string :=
  match v with
  | VUndefined => default "Required" required_error
  | _ => "Expected " +:+ parsedTypeName expected +:+ ", received "
         +:+ parsedTypeName (getParsedType v)
  end.

Definition invalidType {A : Type} (required_error : option string)
    (expected : ZodParsedType) (p : list PathSeg) (v : value) : ParseReturn A :=
  ([mkIssue invalid_type p (invalidTypeMessage required_error expected v)], None).

Inductive StringCheck : Type :=
| ck_min (n : nat) (msg : string)
| ck_max (n : nat) (msg : string)
| ck_url (msg : string).

Section Component.

(** Whether [new URL(s)] succeeds.  The URL parser belongs to the host,
    not to this repository, so it stays a parameter. *)
Variable canParseURL : string → bool.

Definition runStringCheck (p : list PathSeg) (s : string) (c : StringCheck)
  : list ZodIssue :=
  match c with
  | ck_min n msg =>
      if (String.length s <? n)%nat then [mkIssue too_small p msg] else []
  | ck_max n msg =>
      if (n <? String.length s)%nat then [mkIssue too_big p msg] else []
  | ck_url msg =>
      if canParseURL s then [] else [mkIssue invalid_string p msg]
  end.

(** [z.string()] followed by its checks. *)
Definition zString (checks : list StringCheck) (p : list PathSeg) (v : value)
  : ParseReturn string :=
  match v with
  | VStr s => (checks ≫= runStringCheck p s, Some s)
  | _ => invalidType None zt_string p v
  end.

(** [schema.optional()] *)
Definition zOptional {A : Type} (schema : list PathSeg → value → ParseReturn A)
    (p : list PathSeg) (v : value) : ParseReturn (option A) :=
  match v with
  | VUndefined => ([], Some None)
  | _ => let '(iss, out) := schema p v in (iss, Some <$> out)
  end.

(** [z.array(element).min(n, msg)]: the length check first, then every
    element under its index. *)
Definition zArrayMin {A : Type} (element : list PathSeg → value → ParseReturn A)
    (n : nat) (msg : string) (p : list PathSeg) (v : value) : ParseReturn (list A) :=
  match v with
  | VArr items =>
      let results := imap (λ i x, element (p ++ [Index i]) x) items in
      ((if (length items <? n)%nat then [mkIssue too_small p msg] else [])
         ++ (results ≫= fst),
       mapM snd results)
  | _ => invalidType None zt_array p v
  end.

(** [z.date({ required_error })] *)
Definition zDate (required_error : string) (p : list PathSeg) (v : value)
  : ParseReturn Date :=
  match v with
  | VDate d =>
      match getTime d with
      | Some _ => ([], Some d)
      | None => ([mkIssue invalid_date p "Invalid date"], None)
      end
  | _ => invalidType (Some required_error) zt_date p v
  end.


(** *** The form and its schema *)

(** What the form store holds for each registered field. *)
Record FieldValues : Type := mkValues {
  postTitle : value;
  caption : value;
  hashtags : value;
  platforms : value;
  scheduledDate : value;
  webhookUrl : value
}.

(** [defaultValues] of [useForm]; [scheduledDate] is not listed there and
    so starts, and is reset to, [undefined]. *)
Definition defaultValues : FieldValues :=
  {| postTitle := VStr "";
     caption := VStr "";
     hashtags := VStr "";
     platforms := VArr [];
     scheduledDate := VUndefined;
     webhookUrl := VStr "" |}.

Inductive FieldName : Type :=
| f_postTitle | f_caption | f_hashtags | f_platforms | f_scheduledDate | f_webhookUrl.

Definition fieldKey (f : FieldName) : string :=
  match f with
  | f_postTitle => "postTitle"
  | f_caption => "caption"
  | f_hashtags => "hashtags"
  | f_platforms => "platforms"
  | f_scheduledDate => "scheduledDate"
  | f_webhookUrl => "webhookUrl"
  end.

Definition getField (f : FieldName) (v : FieldValues) : value :=
  match f with
  | f_postTitle => postTitle v
  | f_caption => caption v
  | f_hashtags => hashtags v
  | f_platforms => platforms v
  | f_scheduledDate => scheduledDate v
  | f_webhookUrl => webhookUrl v
  end.

Definition setField (f : FieldName) (x : value) (v : FieldValues) : FieldValues :=
  {| postTitle := if f is f_postTitle then x else postTitle v;
     caption := if f is f_caption then x else caption v;
     hashtags := if f is f_hashtags then x else hashtags v;
     platforms := if f is f_platforms then x else platforms v;
     scheduledDate := if f is f_scheduledDate then x else scheduledDate v;
     webhookUrl := if f is f_webhookUrl then x else webhookUrl v |}.

(** [type FormData = z.infer<typeof formSchema>], the validated snapshot
    that [onSubmit] receives. *)
Record FormData : Type := mkFormData {
  data_postTitle : string;
  data_caption : string;
  data_hashtags : option string;
  data_platforms : list string;
  data_scheduledDate : Date;
  data_webhookUrl : string
}.

Definition postTitleSchema : list PathSeg → value → ParseReturn string :=
  zString [ck_min 1 "Post title is required";
           ck_max 100 "Post title must be under 100 characters"].

Definition captionSchema : list PathSeg → value → ParseReturn string :=
  zString [ck_min 1 "Caption is required";
           ck_max 2200 "Caption must be under 2200 characters"].

Definition hashtagsSchema : list PathSeg → value → ParseReturn (option string) :=
  zOptional (zString []).

Definition platformsSchema : list PathSeg → value → ParseReturn (list string) :=
  zArrayMin (zString []) 1 "Select at least one platform".

Definition scheduledDateSchema : list PathSeg → value → ParseReturn Date :=
  zDate "Please select a date and time for posting".

Definition webhookUrlSchema : list PathSeg → value → ParseReturn string :=
  zString [ck_url "Please enter a valid webhook URL"].

(** [formSchema], a [z.object]: the keys are parsed in the order of the
    shape and their issues are collected. *)
Definition formSchema (v : FieldValues) : ParseReturn FormData :=
  let r1 := postTitleSchema [Key "postTitle"] (postTitle v) in
  let r2 := captionSchema [Key "caption"] (caption v) in
  let r3 := hashtagsSchema [Key "hashtags"] (hashtags v) in
  let r4 := platformsSchema [Key "platforms"] (platforms v) in
  let r5 := scheduledDateSchema [Key "scheduledDate"] (scheduledDate v) in
  let r6 := webhookUrlSchema [Key "webhookUrl"] (webhookUrl v) in
  (r1.1 ++ r2.1 ++ r3.1 ++ r4.1 ++ r5.1 ++ r6.1,
   a ← r1.2; b ← r2.2; c ← r3.2; d ← r4.2; e ← r5.2; f ← r6.2;
   Some (mkFormData a b c d e f)).

(** [safeParse]: the parse is valid exactly when no issue was raised. *)
Definition safeParse (v : FieldValues) : list ZodIssue + FormData :=
  match formSchema v with
  | ([], Some data) => inr data
  | (iss, _) => inl iss
  end.

(** *** The resolver *)

Record FieldError : Type := mkFieldError {
  fe_message : string;
  fe_type : ZodIssueCode
}.

Definition segString (s : PathSeg) : string :=
  match s with
  | Key k => k
  | Index i => NilEmpty.string_of_uint (Nat.to_uint i)
  end.

(** [path.join('.')] *)
Definition joinPath (p : list PathSeg) : string := joinWith "." (map segString p).

(** [parseErrorSchema]: one entry per joined path, the first issue of a
    path wins.  (The resolver afterwards nests the dotted keys; emptiness
    and the entries of the top-level fields are the same either way.) *)
Definition parseErrorSchema (zodErrors : list ZodIssue) : gmap string FieldError :=
  fold_left
    (λ errs iss,
       match errs !! joinPath (path iss) with
       | Some _ => errs
       | None => <[joinPath (path iss) := mkFieldError (message iss) (code iss)]> errs
       end)
    zodErrors ∅.

Record ResolverResult : Type := mkResolverResult {
  res_values : option FormData;
  res_errors : gmap string FieldError
}.

Definition zodResolver (v : FieldValues) : ResolverResult :=
  match safeParse v with
  | inr data => mkResolverResult (Some data) ∅
  | inl iss => mkResolverResult None (parseErrorSchema iss)
  end.

(** *** Component state *)

Inductive FormDataEntryValue : Type :=
| EntryText (s : string)
| EntryFile (f : File.t).

Inductive RequestBody : Type :=
| MultipartBody (entries : list (string * FormDataEntryValue))
| TextBody (s : string).

Record Request : Type := mkRequest {
  req_url : string;
  req_method : string;
  req_headers : list (string * string);
  req_body : RequestBody
}.

(** How an awaited [fetch] settles: the promise rejects, or it resolves
    to a response with a status and a body; [res_json] is [None] when
    [response.json()] rejects. *)
Inductive FetchResult : Type :=
| Rejected
| Response (status : Z) (res_json : option value).

(** [response.ok] *)
Definition ok (status : Z) : bool := (200 <=? status) && (status <=? 299).

(** The hooks of the component, the store of [useForm], and the effects
    it has on the outside: toasts shown (oldest first), [fetch] calls made
    (oldest first) and handlers suspended at an [await fetch].  [errors]
    is what the last submit attempt stored. *)
Record State : Type := mkState {
  values : FieldValues;
  errors : gmap string FieldError;
  uploadedImages : list File.t;
  isSubmitting : bool;
  showAIModal : bool;
  aiPrompt : string;
  isGenerating : bool;
  toasts : list Toast;
  requests : list Request;
  pendingSubmits : nat;
  pendingGenerations : nat
}.

Definition initialState : State :=
  {| values := defaultValues;
     errors := ∅;
     uploadedImages := [];
     isSubmitting := false;
     showAIModal := false;
     aiPrompt := "";
     isGenerating := false;
     toasts := [];
     requests := [];
     pendingSubmits := 0;
     pendingGenerations := 0 |}.

(** The form store is replaced. *)
Definition setValues (v : FieldValues) (st : State) : State :=
  {| values := v;
     errors := errors st;
     uploadedImages := uploadedImages st;
     isSubmitting := isSubmitting st;
     showAIModal := showAIModal st;
     aiPrompt := aiPrompt st;
     isGenerating := isGenerating st;
     toasts := toasts st;
     requests := requests st;
     pendingSubmits := pendingSubmits st;
     pendingGenerations := pendingGenerations st |}.

(** [_formState.errors = errors] *)
Definition setErrors (e : gmap string FieldError) (st : State) : State :=
  {| values := values st;
     errors := e;
     uploadedImages := uploadedImages st;
     isSubmitting := isSubmitting st;
     showAIModal := showAIModal st;
     aiPrompt := aiPrompt st;
     isGenerating := isGenerating st;
     toasts := toasts st;
     requests := requests st;
     pendingSubmits := pendingSubmits st;
     pendingGenerations := pendingGenerations st |}.

(** [setUploadedImages] *)
Definition setUploadedImages (imgs : list File.t) (st : State) : State :=
  {| values := values st;
     errors := errors st;
     uploadedImages := imgs;
     isSubmitting := isSubmitting st;
     showAIModal := showAIModal st;
     aiPrompt := aiPrompt st;
     isGenerating := isGenerating st;
     toasts := toasts st;
     requests := requests st;
     pendingSubmits := pendingSubmits st;
     pendingGenerations := pendingGenerations st |}.

(** [setIsSubmitting] *)
Definition setIsSubmitting (b : bool) (st : State) : State :=
  {| values := values st;
     errors := errors st;
     uploadedImages := uploadedImages st;
     isSubmitting := b;
     showAIModal := showAIModal st;
     aiPrompt := aiPrompt st;
     isGenerating := isGenerating st;
     toasts := toasts st;
     requests := requests st;
     pendingSubmits := pendingSubmits st;
     pendingGenerations := pendingGenerations st |}.

(** [setShowAIModal] *)
Definition setShowAIModal (b : bool) (st : State) : State :=
  {| values := values st;
     errors := errors st;
     uploadedImages := uploadedImages st;
     isSubmitting := isSubmitting st;
     showAIModal := b;
     aiPrompt := aiPrompt st;
     isGenerating := isGenerating st;
     toasts := toasts st;
     requests := requests st;
     pendingSubmits := pendingSubmits st;
     pendingGenerations := pendingGenerations st |}.

(** [setAiPrompt] *)
Definition setAiPrompt (s : string) (st : State) : State :=
  {| values := values st;
     errors := errors st;
     uploadedImages := uploadedImages st;
     isSubmitting := isSubmitting st;
     showAIModal := showAIModal st;
     aiPrompt := s;
     isGenerating := isGenerating st;
     toasts := toasts st;
     requests := requests st;
     pendingSubmits := pendingSubmits st;
     pendingGenerations := pendingGenerations st |}.

(** [setIsGenerating] *)
Definition setIsGenerating (b : bool) (st : State) : State :=
  {| values := values st;
     errors := errors st;
     uploadedImages := uploadedImages st;
     isSubmitting := isSubmitting st;
     showAIModal := showAIModal st;
     aiPrompt := aiPrompt st;
     isGenerating := b;
     toasts := toasts st;
     requests := requests st;
     pendingSubmits := pendingSubmits st;
     pendingGenerations := pendingGenerations st |}.

(** [toast (...)] *)
Definition toast (t : Toast) (st : State) : State :=
  {| values := values st;
     errors := errors st;
     uploadedImages := uploadedImages st;
     isSubmitting := isSubmitting st;
     showAIModal := showAIModal st;
     aiPrompt := aiPrompt st;
     isGenerating := isGenerating st;
     toasts := toasts st ++ [t];
     requests := requests st;
     pendingSubmits := pendingSubmits st;
     pendingGenerations := pendingGenerations st |}.

(** [fetch (...)] followed by [await]: the call is recorded and the handler
    is suspended until the request settles. *)
Definition fetchSubmit (r : Request) (st : State) : State :=
  {| values := values st;
     errors := errors st;
     uploadedImages := uploadedImages st;
     isSubmitting := isSubmitting st;
     showAIModal := showAIModal st;
     aiPrompt := aiPrompt st;
     isGenerating := isGenerating st;
     toasts := toasts st;
     requests := requests st ++ [r];
     pendingSubmits := S (pendingSubmits st);
     pendingGenerations := pendingGenerations st |}.

Definition fetchGenerate (r : Request) (st : State) : State :=
  {| values := values st;
     errors := errors st;
     uploadedImages := uploadedImages st;
     isSubmitting := isSubmitting st;
     showAIModal := showAIModal st;
     aiPrompt := aiPrompt st;
     isGenerating := isGenerating st;
     toasts := toasts st;
     requests := requests st ++ [r];
     pendingSubmits := pendingSubmits st;
     pendingGenerations := S (pendingGenerations st) |}.

(** A suspended handler is resumed: one fewer is waiting. *)
Definition resumeSubmit (st : State) : State :=
  {| values := values st;
     errors := errors st;
     uploadedImages := uploadedImages st;
     isSubmitting := isSubmitting st;
     showAIModal := showAIModal st;
     aiPrompt := aiPrompt st;
     isGenerating := isGenerating st;
     toasts := toasts st;
     requests := requests st;
     pendingSubmits := pred (pendingSubmits st);
     pendingGenerations := pendingGenerations st |}.

Definition resumeGenerate (st : State) : State :=
  {| values := values st;
     errors := errors st;
     uploadedImages := uploadedImages st;
     isSubmitting := isSubmitting st;
     showAIModal := showAIModal st;
     aiPrompt := aiPrompt st;
     isGenerating := isGenerating st;
     toasts := toasts st;
     requests := requests st;
     pendingSubmits := pendingSubmits st;
     pendingGenerations := pred (pendingGenerations st) |}.

(** [form.setValue (name, x)]: the store is written, nothing is validated. *)
Definition form_setValue (f : FieldName) (x : value) (st : State) : State :=
  setValues (setField f x (values st)) st.

(** [form.reset ()]: back to the default values, errors cleared. *)
Definition form_reset (st : State) : State :=
  setErrors ∅ (setValues defaultValues st).

(** *** The attachment manager *)

Definition handleImageUpload (files : list File.t) (st : State) : State :=
  let validFiles := List.filter isValidFile files in
  if (4 <? length validFiles + length (uploadedImages st))%nat then
    toast tooManyImages st
  else
    setUploadedImages (uploadedImages st ++ validFiles) st.

Definition removeImage (index : nat) (st : State) : State :=
  setUploadedImages
    (filterIndexed (λ _ i, negb (i =? index)%nat) (uploadedImages st)) st.

(** *** The submission dispatcher *)

Definition submitSucceeded : Toast :=
  mkToast "Content submitted successfully!"
          "Your social media post has been queued for automation." false.

Definition submitFailed : Toast :=
  mkToast "Submission failed" "Please check your webhook URL and try again." true.

(** The [FormData] that [onSubmit] fills; [None] when a serialiser throws
    before the payload is complete. *)
Definition buildFormData (data : FormData) (images : list File.t)
  : option (list (string * FormDataEntryValue)) :=
  iso ← toISOString (data_scheduledDate data);
  Some ([("postTitle", EntryText (data_postTitle data));
         ("caption", EntryText (data_caption data));
         ("hashtags", EntryText (default "" (data_hashtags data)));
         ("platforms", EntryText (JSON_stringify_strings (data_platforms data)));
         ("scheduledDate", EntryText iso)]
        ++ imap (λ index image, (imageKey index, EntryFile image)) images).

(** [catch] and [finally] of [onSubmit]. *)
Definition onSubmit_catch (st : State) : State :=
  setIsSubmitting false (toast submitFailed st).

(** [onSubmit] up to [await fetch (...)]. *)
Definition onSubmit (data : FormData) (st : State) : State :=
  let st1 := setIsSubmitting true st in
  match buildFormData data (uploadedImages st1) with
  | Some formData =>
      fetchSubmit (mkRequest (data_webhookUrl data) "POST" [] (MultipartBody formData)) st1
  | None => onSubmit_catch st1
  end.

(** [onSubmit] from the point where the awaited [fetch] has settled. *)
Definition onSubmit_settled (r : FetchResult) (st : State) : State :=
  match r with
  | Response status _ =>
      if ok status then
        setIsSubmitting false
          (setUploadedImages [] (form_reset (toast submitSucceeded st)))
      else onSubmit_catch st
  | Rejected => onSubmit_catch st
  end.

(** [form.handleSubmit (onSubmit)]: run the resolver, store its errors, and
    call [onSubmit] only when there are none. *)
Definition handleSubmit (st : State) : State :=
  let r := zodResolver (values st) in
  let st1 := setErrors (res_errors r) st in
  if bool_decide (res_errors r = ∅) then
    match res_values r with
    | Some data => onSubmit data st1
    | None => st1
    end
  else st1.

(** *** The AI-assist dispatcher *)

(** White space and line terminators among the code units below 256. *)
Definition isWhiteSpace (c : ascii) : bool :=
  let n := N_of_ascii c in
  ((9 <=? n) && (n <=? 13) || (n =? 32) || (n =? 160))%N.

Fixpoint trimStart (s : string) : string :=
  match s with
  | EmptyString => ""
  | String c rest => if isWhiteSpace c then trimStart rest else s
  end.

Fixpoint trimEnd (s : string) : string :=
  match s with
  | EmptyString => ""
  | String c rest =>
      let rest' := trimEnd rest in
      if isWhiteSpace c && String.eqb rest' "" then "" else String c rest'
  end.

Definition trim (s : string) : string := trimEnd (trimStart s).

(** [!aiPrompt.trim ()] *)
Definition promptIsBlank (s : string) : bool := String.eqb (trim s) "".

Definition enterPrompt : Toast :=
  mkToast "Please enter a prompt"
          "Describe what your post is about to generate content." true.

Definition generateSucceeded : Toast :=
  mkToast "Content generated successfully!"
          "Your caption and hashtags have been populated." false.

Definition generateFailed : Toast :=
  mkToast "Generation failed" "Please try again or enter content manually." true.

Definition aiEndpoint : string :=
  "https://n8n-rksa.onrender.com/webhook/d5799868-0383-44fc-ba56-17dc7399bc69/chat".

(** [catch] and [finally] of [handleAIGenerate]. *)
Definition handleAIGenerate_catch (st : State) : State :=
  setIsGenerating false (toast generateFailed st).

(** [handleAIGenerate] up to [await fetch (...)]. *)
Definition handleAIGenerate (st : State) : State :=
  if promptIsBlank (aiPrompt st) then toast enterPrompt st
  else
    fetchGenerate
      (mkRequest aiEndpoint "POST" [("Content-Type", "application/json")]
                 (TextBody (JSON_stringify_prompt (aiPrompt st))))
      (setIsGenerating true st).

(** [data.caption || data.content || ''], with [None] for a thrown
    [TypeError]. *)
Definition captionOf (data : value) : option value :=
  c ← getProp data "caption";
  if truthy c then Some c
  else k ← getProp data "content"; Some (js_or k (VStr "")).

(** [data.hashtags || ''] *)
Definition hashtagsOf (data : value) : option value :=
  h ← getProp data "hashtags"; Some (js_or h (VStr "")).

(** [handleAIGenerate] from the point where the awaited [fetch] has
    settled: the statements run in source order, and a throw at any of them
    lands in [catch] with what was written so far. *)
Definition handleAIGenerate_settled (r : FetchResult) (st : State) : State :=
  match r with
  | Rejected => handleAIGenerate_catch st
  | Response status res_json =>
      if negb (ok status) then handleAIGenerate_catch st
      else
        match res_json with
        | None => handleAIGenerate_catch st
        | Some data =>
            match captionOf data with
            | None => handleAIGenerate_catch st
            | Some c =>
                let st1 := form_setValue f_caption c st in
                match hashtagsOf data with
                | None => handleAIGenerate_catch st1
                | Some h =>
                    let st2 := form_setValue f_hashtags h st1 in
                    setIsGenerating false
                      (setAiPrompt ""
                         (setShowAIModal false (toast generateSucceeded st2)))
                end
            end
        end
  end.

(** *** Events

    What can happen to a mounted component.  A control that is disabled or
    not rendered in the current state delivers no event to its handler.
    An event is taken in a turn of its own: its handler runs to its
    [await fetch], what [form.handleSubmit] awaits from the resolver is
    part of the same step, and the component has rendered before the next
    event. *)
Inductive Event : Type :=
| FieldChanged (f : FieldName) (x : value)
| FilesSelected (files : list File.t)
| RemoveImageClicked (index : nat)
| SubmitPressed
| SubmitSettled (r : FetchResult)
| AIGenerateOpened
| ModalOpenChanged (open : bool)
| PromptChanged (s : string)
| CancelClicked
| GeneratePressed
| GenerateSettled (r : FetchResult).

Definition step (e : Event) (st : State) : State :=
  match e with
  | FieldChanged f x => form_setValue f x st
  | FilesSelected files => handleImageUpload files st
  | RemoveImageClicked index => removeImage index st
  | SubmitPressed =>
      (* the submit button carries [disabled={isSubmitting}] *)
      if isSubmitting st then st else handleSubmit st
  | SubmitSettled r =>
      match pendingSubmits st with
      | O => st
      | S _ => onSubmit_settled r (resumeSubmit st)
      end
  | AIGenerateOpened => setShowAIModal true st
  | ModalOpenChanged open => setShowAIModal open st
  | PromptChanged s => if showAIModal st then setAiPrompt s st else st
  | CancelClicked => if showAIModal st then setShowAIModal false st else st
  | GeneratePressed =>
      (* [disabled={isGenerating || !aiPrompt.trim ()}], inside the dialog *)
      if showAIModal st && negb (isGenerating st || promptIsBlank (aiPrompt st))
      then handleAIGenerate st else st
  | GenerateSettled r =>
      match pendingGenerations st with
      | O => st
      | S _ => handleAIGenerate_settled r (resumeGenerate st)
      end
  end.

(** The state after a sequence of events, the first event first. *)
Definition run (es : list Event) (st : State) : State :=
  fold_left (λ s e, step e s) es st.

End Component.

(** ** The specification's vocabulary *)

(** The type and size predicate of the attachment contract. *)
Definition acceptable (file : File.t) : Prop :=
  (File.type file = "image/jpeg" ∨ File.type file = "image/png")
  ∧ File.size file ≤ 10 * 1024 * 1024.

#[global] Instance acceptable_dec (file : File.t) : Decision (acceptable file).
Proof. unfold acceptable. apply _. Defined.

(** A batch is rejected: the list is as it was and the warning is shown. *)
Definition batchRejected (st st' : State) : Prop :=
  uploadedImages st' = uploadedImages st
  ∧ toasts st' = toasts st ++ [tooManyImages].

(** A stand-in for the host's URL parser, used only to run the component on
    concrete input: it accepts what starts with an http or https scheme and
    goes on after it. *)
Definition httpLike (s : string) : bool :=
  match s with
  | String "h" (String "t" (String "t" (String "p" rest))) =>
      match rest with
      | String ":" (String "/" (String "/" (String _ _))) => true
      | String "s" (String ":" (String "/" (String "/" (String _ _)))) => true
      | _ => false
      end
  | _ => false
  end.

Definition jpegFile (n : string) (bytes : Z) : File.t := File.make n "image/jpeg" bytes.
Definition pngFile (n : string) (bytes : Z) : File.t := File.make n "image/png" bytes.

(** Three attachments already in place. *)
Definition threeImages : State :=
  setUploadedImages
    [jpegFile "a.jpg" 1000; jpegFile "b.jpg" 2000; pngFile "c.png" 3000]
    initialState.

(** One good JPEG and one PNG of 15 MiB. *)
Definition mixedBatch : list File.t :=
  [jpegFile "d.jpg" 4000; pngFile "huge.png" (15 * 1024 * 1024)].

(** The validation rules of the draft, one per constraint of the data
    model. *)
Inductive Rule : Type :=
| TitleRequired | TitleAtMost100
| CaptionRequired | CaptionAtMost2200
| PlatformSelected
| DateChosen
| WebhookIsUrl.

Definition ruleField (r : Rule) : FieldName :=
  match r with
  | TitleRequired | TitleAtMost100 => f_postTitle
  | CaptionRequired | CaptionAtMost2200 => f_caption
  | PlatformSelected => f_platforms
  | DateChosen => f_scheduledDate
  | WebhookIsUrl => f_webhookUrl
  end.

(** When a draft breaks a rule: the field is missing (absent, of the wrong
    kind, or empty) or out of its bound. *)
Definition violates (canParseURL : string → bool) (r : Rule) (v : FieldValues) : Prop :=
  match r with
  | TitleRequired => ¬ ∃ s, postTitle v = VStr s ∧ s ≠ ""
  | TitleAtMost100 => ∃ s, postTitle v = VStr s ∧ (100 < String.length s)%nat
  | CaptionRequired => ¬ ∃ s, caption v = VStr s ∧ s ≠ ""
  | CaptionAtMost2200 => ∃ s, caption v = VStr s ∧ (2200 < String.length s)%nat
  | PlatformSelected => ¬ ∃ items, platforms v = VArr items ∧ items ≠ []
  | DateChosen => ¬ ∃ ms, scheduledDate v = VDate (DateOf ms)
  | WebhookIsUrl => ¬ ∃ s, webhookUrl v = VStr s ∧ canParseURL s = true
  end.

(** The entry that an issue leaves in the errors of the form. *)
Definition fieldErrorOf (iss : ZodIssue) : FieldError :=
  mkFieldError (message iss) (code iss).

(** The store whose validation yields a given snapshot. *)
Definition snapshotOf (data : FormData) : FieldValues :=
  {| postTitle := VStr (data_postTitle data);
     caption := VStr (data_caption data);
     hashtags := from_option VStr VUndefined (data_hashtags data);
     platforms := VArr (VStr <$> data_platforms data);
     scheduledDate := VDate (data_scheduledDate data);
     webhookUrl := VStr (data_webhookUrl data) |}.

(** The three ways a submission fails, as pairs of the state before the
    submit and the state once it is over: the response is not a 2xx one,
    the request fails in transport, or a serialiser throws while the
    payload is built. *)
Inductive submissionFails (canParseURL : string → bool) : State → State → Prop :=
| fails_by_status (st : State) (data : FormData) (status : Z) (body : option value) :
    isSubmitting st = false →
    safeParse canParseURL (values st) = inr data →
    ¬ (200 ≤ status ≤ 299) →
    submissionFails canParseURL st
      (step canParseURL (SubmitSettled (Response status body))
         (step canParseURL SubmitPressed st))
| fails_in_transport (st : State) (data : FormData) :
    isSubmitting st = false →
    safeParse canParseURL (values st) = inr data →
    submissionFails canParseURL st
      (step canParseURL (SubmitSettled Rejected) (step canParseURL SubmitPressed st))
| fails_serialising (st : State) (data : FormData) :
    toISOString (data_scheduledDate data) = None →
    submissionFails canParseURL st (onSubmit data st).

(** The scenario of the specification: a complete draft with one JPEG. *)
Definition launchData : FormData :=
  {| data_postTitle := "Launch";
     data_caption := "We shipped!";
     data_hashtags := Some "#launch";
     data_platforms := ["facebook"];
     data_scheduledDate := DateOf 1798761600000;
     data_webhookUrl := "https://example.com/hook" |}.

Definition launchDraft : State :=
  run httpLike
    [FieldChanged f_postTitle (VStr "Launch");
     FieldChanged f_caption (VStr "We shipped!");
     FieldChanged f_hashtags (VStr "#launch");
     FieldChanged f_platforms (VArr [VStr "facebook"]);
     FieldChanged f_scheduledDate (VDate (DateOf 1798761600000));
     FieldChanged f_webhookUrl (VStr "https://example.com/hook");
     FilesSelected [jpegFile "launch.jpg" 123456]]
    initialState.

(** The launch draft with the modal open, a prompt typed, and a generation
    request awaiting its response. *)
Definition awaitingGeneration : State :=
  run httpLike
    [AIGenerateOpened; PromptChanged "product launch"; GeneratePressed]
    launchDraft.

(** [n] copies of a character. *)
Fixpoint repeatChar (c : ascii) (n : nat) : string :=
  match n with
  | O => ""
  | S n' => String c (repeatChar c n')
  end.

(** A response body whose caption is one character over the bound. *)
Definition longCaption : string := repeatChar "x" 2201.

Definition longCaptionBody : value :=
  VObj [("caption", VStr longCaption); ("hashtags", VStr "#big")].

(** The attachment invariant: at most four, all of them acceptable. *)
Definition attachmentsOk (st : State) : Prop :=
  (length (uploadedImages st) ≤ 4)%nat ∧ Forall acceptable (uploadedImages st).

(** The busy flag is set exactly while one submission is awaiting its
    response. *)
Definition singleFlight (st : State) : Prop :=
  pendingSubmits st = if isSubmitting st then 1%nat else 0%nat.

(** Case analysis on a scrutinee that contains no further case analysis,
    so that the handlers are taken apart from the inside. *)
Ltac case_inner :=
  match goal with
  | |- context [match ?x with _ => _ end] =>
      lazymatch x with
      | context [match _ with _ => _ end] => fail
      | _ => destruct x eqn:?
      end
  end.

Ltac handler_cases := repeat (case_inner; cbn; try done).

(** ** Further vocabulary: platform selection, prompts, requests *)

(** The ids of the [platforms] table. *)
Definition platformIds : list string := ["facebook"; "instagram"; "linkedin"].

(** [x === id] and [x !== id] against a string [id]. *)
Definition strictEqualsString (x : value) (id : string) : bool :=
  match x with
  | VStr s => String.eqb s id
  | _ => false
  end.

(** [String.prototype.includes] *)
Fixpoint string_includes (s sub : string) : bool :=
  String.prefix sub s
  || match s with
     | EmptyString => false
     | String _ rest => string_includes rest sub
     end.

(** [field.value?.includes (platform.id)], the [isSelected] of a platform
    row; [None] when the call throws a [TypeError]. *)
Definition isSelected (id : string) (fieldValue : value) : option value :=
  match fieldValue with
  | VUndefined | VNull => Some VUndefined
  | VArr items => Some (VBool (existsb (λ x, strictEqualsString x id) items))
  | VStr s => Some (VBool (string_includes s id))
  | _ => None
  end.

(** The elements of [[...x]]; [None] when [x] is not iterable. *)
Definition spread (x : value) : option (list value) :=
  match x with
  | VArr items => Some items
  | VStr s => Some (map (λ c, VStr (String c "")) (list_ascii_of_string s))
  | _ => None
  end.

(** The [onCheckedChange] handler of a platform row: what it passes to
    [field.onChange]; [None] when it throws. *)
Definition onCheckedChange (checked : bool) (id : string) (fieldValue : value)
  : option value :=
  if checked then
    items ← spread fieldValue; Some (VArr (items ++ [VStr id]))
  else
    match fieldValue with
    | VUndefined | VNull => Some VUndefined
    | VArr items =>
        Some (VArr (List.filter (λ x, negb (strictEqualsString x id)) items))
    | _ => None
    end.

(** A click on the checkbox of a platform row: the box shows [isSelected]
    and reports the opposite. *)
Definition clickPlatform (id : string) (fieldValue : value) : option value :=
  shown ← isSelected id fieldValue;
  onCheckedChange (negb (truthy shown)) id fieldValue.

(** A sequence of clicks, the first click first. *)
Fixpoint clickPlatforms (ids : list string) (fieldValue : value) : option value :=
  match ids with
  | [] => Some fieldValue
  | id :: rest => v ← clickPlatform id fieldValue; clickPlatforms rest v
  end.

(** How often an id occurs in a list of clicks. *)
Definition clicksOn (id : string) (ids : list string) : nat :=
  length (filter (λ x, x = id) ids).

(** Every code unit of the string is white space. *)
Fixpoint allWhiteSpace (s : string) : bool :=
  match s with
  | EmptyString => true
  | String c rest => isWhiteSpace c && allWhiteSpace rest
  end.

(** The bounds that [formSchema] puts on a snapshot. *)
Definition withinBounds (canParseURL : string → bool) (data : FormData) : Prop :=
  (1 ≤ String.length (data_postTitle data) ≤ 100)%nat
  ∧ (1 ≤ String.length (data_caption data) ≤ 2200)%nat
  ∧ data_platforms data ≠ []
  ∧ (∃ ms, data_scheduledDate data = DateOf ms)
  ∧ canParseURL (data_webhookUrl data) = true.

(** The ways an awaited generation request ends without a usable body. *)
Inductive generationFails : FetchResult → Prop :=
| gen_rejected : generationFails Rejected
| gen_bad_status (status : Z) (body : option value) :
    ¬ (200 ≤ status ≤ 299) → generationFails (Response status body)
| gen_not_json (status : Z) : generationFails (Response status None)
| gen_null (status : Z) : generationFails (Response status (Some VNull)).

(** The generating flag is set exactly while one generation request is
    awaiting its response. *)
Definition singleGeneration (st : State) : Prop :=
  pendingGenerations st = if isGenerating st then 1%nat else 0%nat.

(** What a request of the component looks like: a multipart POST to a URL
    that passed validation, or a JSON POST of a non-blank prompt to the
    fixed endpoint. *)
Definition wellFormedRequest (canParseURL : string → bool) (r : Request) : Prop :=
  req_method r = "POST"
  ∧ match req_body r with
    | MultipartBody _ => canParseURL (req_url r) = true ∧ req_headers r = []
    | TextBody s =>
        req_url r = aiEndpoint
        ∧ ∃ prompt, promptIsBlank prompt = false ∧ s = JSON_stringify_prompt prompt
    end.

(** ** Between renders

    [step] takes one event as a whole: the handler, what it awaits from
    the resolver, and the render that follows.  Below the same component is
    taken one moment at a time.  A handler is a closure of the render it
    was created in, so it reads the hooks of that render ([shown]) while
    its updates land on the state of the moment ([now]); a control is
    disabled, or absent, as that render drew it; and
    [form.handleSubmit (onSubmit)] suspends at the resolver before
    [onSubmit] runs. *)

(** [handleImageUpload] as a closure: the count reads [uploadedImages] of
    the render, the functional update appends to the list of the moment. *)
Definition handleImageUploadIn (closure : State) (files : list File.t) (st : State)
  : State :=
  let validFiles := List.filter isValidFile files in
  if (4 <? length validFiles + length (uploadedImages closure))%nat then
    toast tooManyImages st
  else
    setUploadedImages (uploadedImages st ++ validFiles) st.

(** [onSubmit] as a closure, up to [await fetch (...)]. *)
Definition onSubmitIn (closure : State) (data : FormData) (st : State) : State :=
  let st1 := setIsSubmitting true st in
  match buildFormData data (uploadedImages closure) with
  | Some formData =>
      fetchSubmit (mkRequest (data_webhookUrl data) "POST" [] (MultipartBody formData)) st1
  | None => onSubmit_catch st1
  end.

(** [handleAIGenerate] as a closure, up to [await fetch (...)]. *)
Definition handleAIGenerateIn (closure : State) (st : State) : State :=
  if promptIsBlank (aiPrompt closure) then toast enterPrompt st
  else
    fetchGenerate
      (mkRequest aiEndpoint "POST" [("Content-Type", "application/json")]
                 (TextBody (JSON_stringify_prompt (aiPrompt closure))))
      (setIsGenerating true st).

(** A call of [form.handleSubmit (onSubmit)] suspended at the resolver:
    what the resolver answers for the values it was given, and the render
    whose [onSubmit] it will call. *)
Record SuspendedSubmit : Type := mkSuspended {
  sus_result : ResolverResult;
  sus_closure : State
}.

(** The rest of [form.handleSubmit (onSubmit)] once the resolver has
    answered. *)
Definition resumeHandleSubmit (p : SuspendedSubmit) (st : State) : State :=
  let st1 := setErrors (res_errors (sus_result p)) st in
  if bool_decide (res_errors (sus_result p) = ∅) then
    match res_values (sus_result p) with
    | Some data => onSubmitIn (sus_closure p) data st1
    | None => st1
    end
  else st1.

Record Mounted : Type := mkMounted {
  now : State;
  shown : State;
  awaiting : list SuspendedSubmit
}.

Definition setNow (st : State) (c : Mounted) : Mounted :=
  {| now := st; shown := shown c; awaiting := awaiting c |}.

(** A component at rest: rendered from its current state, nothing
    suspended at the resolver. *)
Definition atRest (st : State) : Mounted :=
  {| now := st; shown := st; awaiting := [] |}.

Inductive Moment : Type :=
| Arrives (e : Event)
| ResolverSettled
| Rendered.

(** An event reaches the component as it was last rendered. *)
Definition arrive (canParseURL : string → bool) (e : Event) (c : Mounted) : Mounted :=
  match e with
  | FieldChanged f x => setNow (form_setValue f x (now c)) c
  | FilesSelected files => setNow (handleImageUploadIn (shown c) files (now c)) c
  | RemoveImageClicked index => setNow (removeImage index (now c)) c
  | SubmitPressed =>
      if isSubmitting (shown c) then c
      else
        {| now := now c;
           shown := shown c;
           awaiting := awaiting c
                       ++ [mkSuspended (zodResolver canParseURL (values (now c)))
                                       (shown c)] |}
  | SubmitSettled r =>
      match pendingSubmits (now c) with
      | O => c
      | S _ => setNow (onSubmit_settled r (resumeSubmit (now c))) c
      end
  | AIGenerateOpened => setNow (setShowAIModal true (now c)) c
  | ModalOpenChanged open => setNow (setShowAIModal open (now c)) c
  | PromptChanged s =>
      if showAIModal (shown c) then setNow (setAiPrompt s (now c)) c else c
  | CancelClicked =>
      if showAIModal (shown c) then setNow (setShowAIModal false (now c)) c else c
  | GeneratePressed =>
      if showAIModal (shown c)
         && negb (isGenerating (shown c) || promptIsBlank (aiPrompt (shown c)))
      then setNow (handleAIGenerateIn (shown c) (now c)) c else c
  | GenerateSettled r =>
      match pendingGenerations (now c) with
      | O => c
      | S _ => setNow (handleAIGenerate_settled r (resumeGenerate (now c))) c
      end
  end.

Definition moment (canParseURL : string → bool) (m : Moment) (c : Mounted) : Mounted :=
  match m with
  | Arrives e => arrive canParseURL e c
  | ResolverSettled =>
      match awaiting c with
      | [] => c
      | p :: rest =>
          {| now := resumeHandleSubmit p (now c); shown := shown c; awaiting := rest |}
      end
  | Rendered => {| now := now c; shown := now c; awaiting := awaiting c |}
  end.

Definition moments (canParseURL : string → bool) (ms : list Moment) (c : Mounted)
  : Mounted :=
  fold_left (λ c' m, moment canParseURL m c') ms c.

(** An event delivered in a turn of its own, as the browser delivers the
    clicks and key strokes of a user: it arrives, what its handler awaits
    from the resolver settles, and the component renders, all before
    anything else arrives. *)
Definition turn (canParseURL : string → bool) (e : Event) (c : Mounted) : Mounted :=
  moments canParseURL [Arrives e; ResolverSettled; Rendered] c.

Definition turns (canParseURL : string → bool) (es : list Event) (c : Mounted)
  : Mounted :=
  fold_left (λ c' e, turn canParseURL e c') es c.

(** * Properties *)

(** ** Attachments *)

Lemma isValidFile_spec (file : File.t) : isValidFile file = true ↔ acceptable file.
Proof.
  unfold isValidFile, acceptable.
  rewrite andb_true_iff, orb_true_iff, !String.eqb_eq, Z.leb_le. tauto.
Qed.

Lemma filter_isValidFile (files : list File.t) :
  List.filter isValidFile files = filter acceptable files.
Proof.
  induction files as [|f files IH]; [done|].
  cbn [List.filter]. rewrite filter_cons.
  destruct (isValidFile f) eqn:E.
  - rewrite decide_True by (by apply isValidFile_spec). by rewrite IH.
  - rewrite decide_False; [done|].
    intros H%isValidFile_spec. congruence.
Qed.

Lemma handleImageUpload_over (st : State) (files : list File.t) :
  (4 < length (filter acceptable files) + length (uploadedImages st))%nat →
  handleImageUpload files st = toast tooManyImages st.
Proof.
  intros H. unfold handleImageUpload. rewrite filter_isValidFile.
  by rewrite (proj2 (Nat.ltb_lt _ _) H).
Qed.

Lemma handleImageUpload_fits (st : State) (files : list File.t) :
  (length (filter acceptable files) + length (uploadedImages st) ≤ 4)%nat →
  handleImageUpload files st
  = setUploadedImages (uploadedImages st ++ filter acceptable files) st.
Proof.
  intros H. unfold handleImageUpload. rewrite filter_isValidFile.
  by rewrite (proj2 (Nat.ltb_ge _ _) H).
Qed.

(** C1, as stated, fails: with three attachments in place, a batch of one
    good JPEG and one oversized PNG has raw length two, so the raw count
    would be five; yet the batch is not rejected, the JPEG is appended and
    no warning is shown. *)
Lemma C1_raw_length_is_not_what_is_checked :
  (4 < length (uploadedImages threeImages) + length mixedBatch)%nat
  ∧ uploadedImages (handleImageUpload mixedBatch threeImages)
    = uploadedImages threeImages ++ [jpegFile "d.jpg" 4000]
  ∧ toasts (handleImageUpload mixedBatch threeImages) = toasts threeImages
  ∧ ¬ batchRejected threeImages (handleImageUpload mixedBatch threeImages).
Proof.
  split; [cbn; lia|]. split; [reflexivity|]. split; [reflexivity|].
  intros [H _]. discriminate H.
Qed.

(** C1, amended: the cap is checked after the type and size filter.  A
    batch is rejected wholesale (list unchanged, the maximum-of-4 warning
    shown) exactly when the current count plus the number of candidates
    that pass the filter exceeds 4. *)
Theorem C1_cap_counts_accepted_files (st : State) (files : list File.t) :
  batchRejected st (handleImageUpload files st)
  ↔ (4 < length (filter acceptable files) + length (uploadedImages st))%nat.
Proof.
  split.
  - intros [_ Ht].
    destruct (decide (4 < length (filter acceptable files)
                          + length (uploadedImages st))%nat) as [|Hle]; [done|].
    rewrite handleImageUpload_fits in Ht by lia. cbn in Ht.
    apply (f_equal length) in Ht. rewrite length_app in Ht. cbn in Ht. lia.
  - intros H. rewrite handleImageUpload_over by done. by split.
Qed.

(** The attachment cap of the specification's examples: three in place and
    three more good files are refused as a whole; three in place and one
    more good file make four. *)
Example three_plus_three :
  let batch := [jpegFile "d.jpg" 1; jpegFile "e.jpg" 2; pngFile "f.png" 3] in
  handleImageUpload batch threeImages = toast tooManyImages threeImages.
Proof. reflexivity. Qed.

Example three_plus_one :
  uploadedImages (handleImageUpload [pngFile "d.png" (10 * 1024 * 1024)] threeImages)
  = uploadedImages threeImages ++ [pngFile "d.png" (10 * 1024 * 1024)].
Proof. reflexivity. Qed.

Example remove_the_middle_one :
  uploadedImages (removeImage 1 threeImages)
  = [jpegFile "a.jpg" 1000; pngFile "c.png" 3000]
  ∧ uploadedImages (removeImage 7 threeImages) = uploadedImages threeImages.
Proof. split; reflexivity. Qed.

(** C7: a candidate is accepted exactly when its type is image/jpeg or
    image/png and its size is at most 10 * 1024 * 1024 bytes; when the batch
    is not rejected for count, the accepted candidates are appended after
    the existing attachments in selection order, the existing ones stay as
    they were, and nothing is reported for the dropped files. *)
Theorem C7_accepted_files_are_appended (st : State) (files : list File.t) :
  (length (filter acceptable files) + length (uploadedImages st) ≤ 4)%nat →
  uploadedImages (handleImageUpload files st)
  = uploadedImages st ++ filter acceptable files
  ∧ (∀ file, isValidFile file = true ↔ acceptable file)
  ∧ (∀ file, file ∈ filter acceptable files ↔ acceptable file ∧ file ∈ files)
  ∧ filter acceptable files `sublist_of` files
  ∧ toasts (handleImageUpload files st) = toasts st.
Proof.
  intros H. rewrite handleImageUpload_fits by done. cbn.
  split; [done|]. split; [apply isValidFile_spec|].
  split; [intros file; apply list_elem_of_filter|].
  split; [apply sublist_filter|done].
Qed.

(** C7 at work: the good JPEG of the mixed batch becomes the fourth
    attachment. *)
Lemma C7_accepted_files_are_appended_witness :
  uploadedImages (handleImageUpload mixedBatch threeImages)
  = uploadedImages threeImages ++ filter acceptable mixedBatch
  ∧ (∀ file, isValidFile file = true ↔ acceptable file)
  ∧ (∀ file, file ∈ filter acceptable mixedBatch ↔ acceptable file ∧ file ∈ mixedBatch)
  ∧ filter acceptable mixedBatch `sublist_of` mixedBatch
  ∧ toasts (handleImageUpload mixedBatch threeImages) = toasts threeImages.
Proof.
  apply (C7_accepted_files_are_appended threeImages mixedBatch).
  vm_compute. lia.
Defined.

Lemma filterFrom_past {A : Type} (index i0 : nat) (l : list A) :
  (index < i0)%nat → filterFrom (λ _ i, negb (i =? index)%nat) i0 l = l.
Proof.
  revert i0. induction l as [|x l IH]; intros i0 H; [done|].
  cbn [filterFrom]. rewrite (proj2 (Nat.eqb_neq i0 index)) by lia.
  cbn. by rewrite IH by lia.
Qed.

Lemma filterFrom_delete {A : Type} (index i0 : nat) (l : list A) :
  (i0 ≤ index)%nat →
  filterFrom (λ _ i, negb (i =? index)%nat) i0 l = delete (index - i0)%nat l.
Proof.
  revert i0. induction l as [|x l IH]; intros i0 H; [done|].
  cbn [filterFrom]. destruct (decide (i0 = index)) as [->|Hne].
  - rewrite Nat.eqb_refl, Nat.sub_diag. cbn. apply filterFrom_past. lia.
  - rewrite (proj2 (Nat.eqb_neq i0 index)) by done. cbn.
    rewrite IH by lia.
    replace (index - i0)%nat with (S (index - S i0)) by lia. done.
Qed.

(** [removeImage] drops exactly the element at the index, and nothing when
    the index is out of range. *)
Lemma removeImage_delete (index : nat) (st : State) :
  uploadedImages (removeImage index st) = delete index (uploadedImages st).
Proof.
  cbn. unfold filterIndexed. rewrite filterFrom_delete by lia.
  by rewrite Nat.sub_0_r.
Qed.

(** *** The attachment invariant *)

Section Reachable.

Variable canParseURL : string → bool.

Lemma handleSubmit_uploadedImages (st : State) :
  uploadedImages (handleSubmit canParseURL st) = uploadedImages st.
Proof.
  unfold handleSubmit, onSubmit, onSubmit_catch.
  repeat (case_match; cbn; try done).
Qed.

Lemma step_attachmentsOk (e : Event) (st : State) :
  attachmentsOk st → attachmentsOk (step canParseURL e st).
Proof.
  intros [Hlen Hall]. unfold attachmentsOk.
  destruct e; cbn [step].
  - done.
  - destruct (decide (4 < length (filter acceptable files)
                          + length (uploadedImages st))%nat) as [Hover|Hfit].
    + by rewrite handleImageUpload_over.
    + rewrite handleImageUpload_fits by lia. cbn.
      rewrite length_app, Forall_app. split; [lia|].
      split; [done|]. apply Forall_forall. intros file Hin.
      by apply list_elem_of_filter in Hin as [? _].
  - rewrite removeImage_delete. split; [|by apply Forall_delete].
    pose proof (sublist_length _ _ (sublist_delete (uploadedImages st) index)). lia.
  - destruct (isSubmitting st); [done|]. by rewrite handleSubmit_uploadedImages.
  - destruct (pendingSubmits st); [done|].
    destruct r as [|status body]; cbn; [done|].
    destruct (ok status); cbn; [|done]. split; [lia|constructor].
  - done.
  - done.
  - by destruct (showAIModal st).
  - by destruct (showAIModal st).
  - unfold handleAIGenerate. by repeat (case_match; cbn; try done).
  - destruct (pendingGenerations st); [done|].
    unfold handleAIGenerate_settled, handleAIGenerate_catch.
    by repeat (case_match; cbn; try done).
Qed.

Lemma run_attachmentsOk (es : list Event) (st : State) :
  attachmentsOk st → attachmentsOk (run canParseURL es st).
Proof.
  revert st. induction es as [|e es IH]; intros st H; [done|].
  cbn. apply IH. by apply step_attachmentsOk.
Qed.

(** C8: after every sequence of events from the freshly mounted component
    (adding files, removing one, the reset after a successful submit, and
    everything else that can happen), the attachment list has at most 4
    elements and each of them passes the type and size predicate. *)
Theorem C8_attachments_stay_valid (es : list Event) :
  let st := run canParseURL es initialState in
  (length (uploadedImages st) ≤ 4)%nat ∧ Forall acceptable (uploadedImages st).
Proof.
  apply run_attachmentsOk. split; [cbn; lia|constructor].
Qed.

(** *** Single flight *)

Lemma step_singleFlight (e : Event) (st : State) :
  singleFlight st → singleFlight (step canParseURL e st).
Proof.
  unfold singleFlight. intros H.
  destruct e; cbn [step]; try done.
  - unfold handleImageUpload. cbv zeta. by destruct (_ <? _)%nat.
  - destruct (isSubmitting st) eqn:Hbusy; [by rewrite Hbusy|].
    unfold handleSubmit, onSubmit, onSubmit_catch. cbv zeta.
    handler_cases. by rewrite H.
  - destruct (pendingSubmits st) as [|n] eqn:Hn; [by rewrite Hn|].
    destruct (isSubmitting st); [|done].
    injection H as ->.
    unfold onSubmit_settled, onSubmit_catch. cbn.
    handler_cases; by rewrite Hn.
  - by destruct (showAIModal st).
  - by destruct (showAIModal st).
  - unfold handleAIGenerate. by handler_cases.
  - destruct (pendingGenerations st); [done|].
    unfold handleAIGenerate_settled, handleAIGenerate_catch.
    by handler_cases.
Qed.

Lemma run_singleFlight (es : list Event) (st : State) :
  singleFlight st → singleFlight (run canParseURL es st).
Proof.
  revert st. induction es as [|e es IH]; intros st H; [done|].
  cbn. apply IH. by apply step_singleFlight.
Qed.

(** Single flight, one event per turn: in every state reached that way at
    most one submission is awaiting its response, one is awaiting exactly
    when the busy flag is set, and while the flag is set a further press on
    the submit control does nothing. *)
Lemma single_flight_per_event (es : list Event) :
  let st := run canParseURL es initialState in
  (pendingSubmits st ≤ 1)%nat
  ∧ (pendingSubmits st = 1%nat ↔ isSubmitting st = true)
  ∧ (isSubmitting st = true →
     step canParseURL SubmitPressed st = st
     ∧ requests (step canParseURL SubmitPressed st) = requests st).
Proof.
  intros st.
  assert (H : singleFlight st) by (by apply run_singleFlight).
  unfold singleFlight in H.
  destruct (isSubmitting st) eqn:Hbusy; rewrite H.
  - split; [lia|]. split; [done|]. intros _. cbn. by rewrite Hbusy.
  - split; [lia|]. split; [split; intros; discriminate|]. intros; discriminate.
Qed.

End Reachable.

(** ** Validation *)

(** The errors of the form hold, under each joined path, the first issue
    raised for that path. *)
Lemma parseErrorSchema_fold (zodErrors : list ZodIssue)
    (acc : gmap string FieldError) (k : string) :
  fold_left
    (λ errs iss,
       match errs !! joinPath (path iss) with
       | Some _ => errs
       | None => <[joinPath (path iss) := mkFieldError (message iss) (code iss)]> errs
       end)
    zodErrors acc !! k
  = match acc !! k with
    | Some e => Some e
    | None => fieldErrorOf <$> head (filter (λ iss, joinPath (path iss) = k) zodErrors)
    end.
Proof.
  revert acc. induction zodErrors as [|iss rest IH]; intros acc.
  { cbn. by destruct (acc !! k). }
  cbn [fold_left]. rewrite IH. rewrite filter_cons.
  destruct (acc !! joinPath (path iss)) eqn:Hacc.
  - destruct (acc !! k) eqn:Hk; [done|].
    rewrite decide_False; [done|]. intros Heq. rewrite Heq in Hacc. congruence.
  - rewrite lookup_insert. case_decide as Hd.
    + subst k. by rewrite Hacc.
    + done.
Qed.

Lemma parseErrorSchema_lookup (zodErrors : list ZodIssue) (k : string) :
  parseErrorSchema zodErrors !! k
  = fieldErrorOf <$> head (filter (λ iss, joinPath (path iss) = k) zodErrors).
Proof. unfold parseErrorSchema. by rewrite parseErrorSchema_fold, lookup_empty. Qed.

Lemma parseErrorSchema_elem (zodErrors : list ZodIssue) (iss : ZodIssue) :
  iss ∈ zodErrors → is_Some (parseErrorSchema zodErrors !! joinPath (path iss)).
Proof.
  intros Hin. rewrite parseErrorSchema_lookup.
  assert (Hf : iss ∈ filter (λ i, joinPath (path i) = joinPath (path iss)) zodErrors)
    by (by apply list_elem_of_filter).
  destruct (filter _ zodErrors); [by apply elem_of_nil in Hf|]. by eexists.
Qed.

Lemma parseErrorSchema_nonempty (zodErrors : list ZodIssue) :
  zodErrors ≠ [] → parseErrorSchema zodErrors ≠ ∅.
Proof.
  destruct zodErrors as [|iss rest]; [done|]. intros _ Hempty.
  destruct (parseErrorSchema_elem (iss :: rest) iss) as [e He]; [left|].
  rewrite Hempty, lookup_empty in He. done.
Qed.

Section Validation.

Variable canParseURL : string → bool.

Lemma safeParse_issues (v : FieldValues) :
  (formSchema canParseURL v).1 ≠ [] →
  safeParse canParseURL v = inl (formSchema canParseURL v).1.
Proof.
  unfold safeParse. destruct (formSchema canParseURL v) as [[|iss rest] out]; [done|].
  done.
Qed.

Lemma safeParse_valid (v : FieldValues) (data : FormData) :
  safeParse canParseURL v = inr data ↔ formSchema canParseURL v = ([], Some data).
Proof.
  unfold safeParse.
  destruct (formSchema canParseURL v) as [[|iss rest] [d|]]; split; intros H;
    by simplify_eq.
Qed.

(** A submit of a draft that raises issues stores the errors and does
    nothing else. *)
Lemma handleSubmit_invalid (st : State) :
  (formSchema canParseURL (values st)).1 ≠ [] →
  handleSubmit canParseURL st
  = setErrors (parseErrorSchema (formSchema canParseURL (values st)).1) st.
Proof.
  intros H. unfold handleSubmit, zodResolver. rewrite safeParse_issues by done.
  cbn. by rewrite bool_decide_eq_false_2 by (by apply parseErrorSchema_nonempty).
Qed.

(** A submit of a draft that validates hands the snapshot to [onSubmit]. *)
Lemma handleSubmit_valid (st : State) (data : FormData) :
  safeParse canParseURL (values st) = inr data →
  handleSubmit canParseURL st = onSubmit data (setErrors ∅ st).
Proof.
  intros H. unfold handleSubmit, zodResolver. rewrite H. cbn.
  by rewrite bool_decide_eq_true_2.
Qed.

Lemma string_or_not (v : value) : (∃ s, v = VStr s) ∨ (∀ s, v ≠ VStr s).
Proof. destruct v; eauto; right; intros; discriminate. Qed.

(** What the schemas of the library raise. *)
Lemma zString_check (checks : list StringCheck) (c : StringCheck)
    (p : list PathSeg) (s : string) (iss : ZodIssue) :
  c ∈ checks → iss ∈ runStringCheck canParseURL p s c →
  iss ∈ (zString canParseURL checks p (VStr s)).1.
Proof. intros Hc Hi. cbn. apply list_elem_of_bind. eauto. Qed.

Lemma zString_not_a_string (checks : list StringCheck) (p : list PathSeg) (v : value) :
  (∀ s, v ≠ VStr s) →
  (zString canParseURL checks p v).1
  = [mkIssue invalid_type p (invalidTypeMessage None zt_string v)].
Proof. intros H. destruct v; try done. by destruct (H s). Qed.

Lemma zString_required (checks : list StringCheck) (msg : string)
    (p : list PathSeg) (v : value) :
  ck_min 1 msg ∈ checks →
  (¬ ∃ s, v = VStr s ∧ s ≠ "") →
  ∃ iss, iss ∈ (zString canParseURL checks p v).1 ∧ path iss = p.
Proof.
  intros Hc H.
  destruct (string_or_not v) as [[s ->]|Hn].
  - exists (mkIssue too_small p msg). split; [|done].
    eapply zString_check; [done|]. cbn.
    destruct s; [left|]. destruct H. by eexists.
  - rewrite zString_not_a_string by done.
    eexists. split; [left|done].
Qed.

Lemma zString_too_long (checks : list StringCheck) (n : nat) (msg : string)
    (p : list PathSeg) (s : string) :
  ck_max n msg ∈ checks → (n < String.length s)%nat →
  mkIssue too_big p msg ∈ (zString canParseURL checks p (VStr s)).1.
Proof.
  intros Hc H. eapply zString_check; [done|]. unfold runStringCheck.
  rewrite (proj2 (Nat.ltb_lt _ _) H). left.
Qed.

Lemma zString_not_a_url (checks : list StringCheck) (msg : string)
    (p : list PathSeg) (v : value) :
  ck_url msg ∈ checks →
  (¬ ∃ s, v = VStr s ∧ canParseURL s = true) →
  ∃ iss, iss ∈ (zString canParseURL checks p v).1 ∧ path iss = p.
Proof.
  intros Hc H.
  destruct (string_or_not v) as [[s ->]|Hn].
  - exists (mkIssue invalid_string p msg). split; [|done].
    eapply zString_check; [done|]. cbn.
    destruct (canParseURL s) eqn:E; [|left]. destruct H. by eexists.
  - rewrite zString_not_a_string by done.
    eexists. split; [left|done].
Qed.

Lemma zArrayMin_empty {A : Type} (element : list PathSeg → value → ParseReturn A)
    (msg : string) (p : list PathSeg) (v : value) :
  (¬ ∃ items, v = VArr items ∧ items ≠ []) →
  ∃ iss, iss ∈ (zArrayMin element 1 msg p v).1 ∧ path iss = p.
Proof.
  intros H. destruct v; try (eexists; split; [left|done]).
  destruct items as [|x items]; [eexists; split; [left|done]|].
  destruct H. by eexists.
Qed.

Lemma zDate_missing (required_error : string) (p : list PathSeg) (v : value) :
  (¬ ∃ ms, v = VDate (DateOf ms)) →
  ∃ iss, iss ∈ (zDate required_error p v).1 ∧ path iss = p.
Proof.
  intros H. destruct v; try (eexists; split; [left|done]).
  destruct d; [|eexists; split; [left|done]].
  destruct H. by eexists.
Qed.

Lemma formSchema_issues (v : FieldValues) (iss : ZodIssue) :
  iss ∈ (formSchema canParseURL v).1
  ↔ iss ∈ (postTitleSchema canParseURL [Key "postTitle"] (postTitle v)).1
    ∨ iss ∈ (captionSchema canParseURL [Key "caption"] (caption v)).1
    ∨ iss ∈ (hashtagsSchema canParseURL [Key "hashtags"] (hashtags v)).1
    ∨ iss ∈ (platformsSchema canParseURL [Key "platforms"] (platforms v)).1
    ∨ iss ∈ (scheduledDateSchema [Key "scheduledDate"] (scheduledDate v)).1
    ∨ iss ∈ (webhookUrlSchema canParseURL [Key "webhookUrl"] (webhookUrl v)).1.
Proof. unfold formSchema. cbn [fst]. by rewrite !elem_of_app. Qed.

(** Every broken rule raises an issue under the path of its field. *)
Lemma violates_issue (r : Rule) (v : FieldValues) :
  violates canParseURL r v →
  ∃ iss, iss ∈ (formSchema canParseURL v).1
         ∧ joinPath (path iss) = fieldKey (ruleField r).
Proof.
  intros H.
  assert (∃ iss, iss ∈ (formSchema canParseURL v).1
                 ∧ path iss = [Key (fieldKey (ruleField r))]) as (iss & Hin & Hp);
    [|exists iss; by rewrite Hp].
  setoid_rewrite formSchema_issues.
  destruct r; cbn in H; cbn [ruleField fieldKey].
  - destruct (zString_required
                [ck_min 1 "Post title is required";
                 ck_max 100 "Post title must be under 100 characters"]
                _ [Key "postTitle"] _ ltac:(left) H) as (iss & ? & ?).
    exists iss. auto.
  - destruct H as (s & Hs & Hlen).
    exists (mkIssue too_big [Key "postTitle"] "Post title must be under 100 characters").
    split; [left|done].
    rewrite Hs. eapply zString_too_long; [|done]. set_solver.
  - destruct (zString_required
                [ck_min 1 "Caption is required";
                 ck_max 2200 "Caption must be under 2200 characters"]
                _ [Key "caption"] _ ltac:(left) H) as (iss & ? & ?).
    exists iss. auto.
  - destruct H as (s & Hs & Hlen).
    exists (mkIssue too_big [Key "caption"] "Caption must be under 2200 characters").
    split; [right; left|done].
    rewrite Hs. eapply zString_too_long; [|done]. set_solver.
  - destruct (zArrayMin_empty (zString canParseURL []) "Select at least one platform"
                [Key "platforms"] _ H) as (iss & ? & ?).
    exists iss. auto 10.
  - destruct (zDate_missing "Please select a date and time for posting"
                [Key "scheduledDate"] _ H) as (iss & ? & ?).
    exists iss. auto 10.
  - destruct (zString_not_a_url [ck_url "Please enter a valid webhook URL"]
                _ [Key "webhookUrl"] _ ltac:(left) H) as (iss & ? & ?).
    exists iss. auto 10.
Qed.

Lemma violates_raises (r : Rule) (v : FieldValues) :
  violates canParseURL r v → (formSchema canParseURL v).1 ≠ [].
Proof.
  intros H. destruct (violates_issue r v H) as (iss & Hin & _).
  intros Hnil. rewrite Hnil in Hin. by apply elem_of_nil in Hin.
Qed.

Lemma violates_error (r : Rule) (v : FieldValues) :
  violates canParseURL r v →
  is_Some (parseErrorSchema (formSchema canParseURL v).1 !! fieldKey (ruleField r)).
Proof.
  intros H. destruct (violates_issue r v H) as (iss & Hin & <-).
  by apply parseErrorSchema_elem.
Qed.

(** C2: when a draft breaks any rule (a required field missing, or a
    bound exceeded), a submit stores an error under the field of every rule
    the draft breaks, not only of the first; it dispatches no request and
    leaves every field value, and everything else but the errors, as it
    was. *)
Theorem C2_every_violated_rule_is_reported (st : State) (r : Rule) :
  violates canParseURL r (values st) →
  let st' := handleSubmit canParseURL st in
  (∀ r', violates canParseURL r' (values st) →
         is_Some (errors st' !! fieldKey (ruleField r')))
  ∧ requests st' = requests st
  ∧ pendingSubmits st' = pendingSubmits st
  ∧ values st' = values st
  ∧ st' = setErrors (errors st') st.
Proof.
  intros H st'. subst st'.
  rewrite handleSubmit_invalid by (by eapply violates_raises).
  cbn. split; [|done]. intros r'. apply violates_error.
Qed.

End Validation.

(** C2 at work: the empty draft of a freshly mounted form is missing its
    title (among other things); a submit reports it and sends nothing. *)
Lemma C2_every_violated_rule_is_reported_witness :
  let st' := handleSubmit httpLike initialState in
  (∀ r', violates httpLike r' (values initialState) →
         is_Some (errors st' !! fieldKey (ruleField r')))
  ∧ requests st' = requests initialState
  ∧ pendingSubmits st' = pendingSubmits initialState
  ∧ values st' = values initialState
  ∧ st' = setErrors (errors st') initialState.
Proof.
  apply (C2_every_violated_rule_is_reported httpLike initialState TitleRequired).
  cbn. intros (s & Hs & Hne). by simplify_eq.
Defined.

(** The five errors of the empty draft, with the messages of the schema. *)
Example empty_draft_errors :
  let e := errors (handleSubmit httpLike initialState) in
  e !! "postTitle" = Some (mkFieldError "Post title is required" too_small)
  ∧ e !! "caption" = Some (mkFieldError "Caption is required" too_small)
  ∧ e !! "hashtags" = None
  ∧ e !! "platforms" = Some (mkFieldError "Select at least one platform" too_small)
  ∧ e !! "scheduledDate"
    = Some (mkFieldError "Please select a date and time for posting" invalid_type)
  ∧ e !! "webhookUrl" = Some (mkFieldError "Please enter a valid webhook URL" invalid_string).
Proof. by vm_compute. Qed.

(** ** Submission *)

Lemma mapM_strings (f : nat → value → ParseReturn string)
    (items : list value) (l : list string) :
  (∀ i x s, (f i x).2 = Some s → x = VStr s) →
  mapM snd (imap f items) = Some l → items = VStr <$> l.
Proof.
  revert f l. induction items as [|x items IH]; intros f l Hf H.
  - by simplify_option_eq.
  - rewrite imap_cons in H. simpl in H.
    destruct (f 0%nat x).2 as [s|] eqn:Hx; [|done]. simpl in H.
    destruct (mapM snd (imap (f ∘ S) items)) as [k|] eqn:Hk; [|done].
    simplify_option_eq. f_equal.
    + by apply (Hf 0%nat).
    + apply (IH (f ∘ S)); [|done]. intros i y s'. apply Hf.
Qed.

Section Submission.

Variable canParseURL : string → bool.

Lemma zString_output (checks : list StringCheck) (p : list PathSeg)
    (v : value) (s : string) :
  (zString canParseURL checks p v).2 = Some s → v = VStr s.
Proof. destruct v; cbn; intros; by simplify_eq. Qed.

(** A validated snapshot is the store it was parsed from, and its date is
    a valid one. *)
Lemma safeParse_snapshot (v : FieldValues) (data : FormData) :
  safeParse canParseURL v = inr data →
  v = snapshotOf data ∧ ∃ ms, data_scheduledDate data = DateOf ms.
Proof.
  intros H%safeParse_valid. destruct v as [t c h pl d u].
  unfold formSchema in H. cbn [postTitle caption hashtags platforms scheduledDate webhookUrl] in H.
  injection H as _ Hout.
  destruct (postTitleSchema canParseURL [Key "postTitle"] t).2 as [t'|] eqn:Ht; [|done].
  destruct (captionSchema canParseURL [Key "caption"] c).2 as [c'|] eqn:Hc; [|done].
  destruct (hashtagsSchema canParseURL [Key "hashtags"] h).2 as [h'|] eqn:Hh; [|done].
  destruct (platformsSchema canParseURL [Key "platforms"] pl).2 as [pl'|] eqn:Hpl; [|done].
  destruct (scheduledDateSchema [Key "scheduledDate"] d).2 as [d'|] eqn:Hd; [|done].
  destruct (webhookUrlSchema canParseURL [Key "webhookUrl"] u).2 as [u'|] eqn:Hu; [|done].
  cbn in Hout. simplify_eq. unfold snapshotOf. cbn.
  apply zString_output in Ht as ->. apply zString_output in Hc as ->.
  apply zString_output in Hu as ->.
  assert (h = from_option VStr VUndefined h') as ->.
  { unfold hashtagsSchema, zOptional in Hh.
    destruct h; cbn in Hh; by simplify_eq. }
  assert (pl = VArr (VStr <$> pl')) as ->.
  { unfold platformsSchema, zArrayMin in Hpl.
    destruct pl; cbn in Hpl; try done. f_equal.
    eapply mapM_strings; [|exact Hpl].
    intros i x s. apply zString_output. }
  destruct d as [| | | | | | |[ms|]]; cbn in Hd; try done. simplify_eq.
  eauto.
Qed.

Lemma toISOString_valid (ms : Z) : ∃ iso, toISOString (DateOf ms) = Some iso.
Proof.
  unfold toISOString. cbn [getTime].
  destruct (civilFromDays (ms / 86400000)) as [[y m] d]. eauto.
Qed.

(** A submit of a validated draft, up to the point where the request is
    awaited. *)
Lemma press_valid (st : State) (data : FormData) :
  isSubmitting st = false →
  safeParse canParseURL (values st) = inr data →
  ∃ formData,
    buildFormData data (uploadedImages st) = Some formData
    ∧ step canParseURL SubmitPressed st
      = fetchSubmit
          (mkRequest (data_webhookUrl data) "POST" [] (MultipartBody formData))
          (setIsSubmitting true (setErrors ∅ st)).
Proof.
  intros Hidle Hvalid. cbn [step]. rewrite Hidle.
  rewrite (handleSubmit_valid _ _ _ Hvalid).
  destruct (safeParse_snapshot _ _ Hvalid) as [_ [ms Hms]].
  destruct (toISOString_valid ms) as [iso Hiso].
  unfold onSubmit, buildFormData. cbn [uploadedImages setIsSubmitting setErrors].
  rewrite Hms, Hiso. cbn [mbind option_bind]. eauto.
Qed.

(** C5: a submit of a validated draft with its attachments makes exactly
    one request, a POST to the webhook URL of the draft, whose multipart
    body holds, in this order, postTitle, caption, hashtags (the empty
    string when absent), platforms as the JSON text of the array,
    scheduledDate as the ISO text of the date, and then one entry per
    attachment under image_0, image_1, ... in the order of the list. *)
Theorem C5_one_multipart_post (st : State) (data : FormData) :
  isSubmitting st = false →
  safeParse canParseURL (values st) = inr data →
  let st' := step canParseURL SubmitPressed st in
  values st = snapshotOf data
  ∧ ∃ iso entries,
      toISOString (data_scheduledDate data) = Some iso
      ∧ requests st'
        = requests st
          ++ [mkRequest (data_webhookUrl data) "POST" [] (MultipartBody entries)]
      ∧ take 5 entries
        = [("postTitle", EntryText (data_postTitle data));
           ("caption", EntryText (data_caption data));
           ("hashtags", EntryText (default "" (data_hashtags data)));
           ("platforms", EntryText (JSON_stringify_strings (data_platforms data)));
           ("scheduledDate", EntryText iso)]
      ∧ length entries = (5 + length (uploadedImages st))%nat
      ∧ ∀ i image, uploadedImages st !! i = Some image →
                   entries !! (5 + i)%nat
                   = Some ("image_" +:+ NilEmpty.string_of_uint (Nat.to_uint i),
                           EntryFile image).
Proof.
  intros Hidle Hvalid st'.
  destruct (safeParse_snapshot _ _ Hvalid) as [Hsnap [ms Hms]].
  split; [done|].
  destruct (press_valid st data Hidle Hvalid) as (formData & Hfd & Hstep).
  subst st'. rewrite Hstep. clear Hstep.
  unfold buildFormData in Hfd.
  destruct (toISOString (data_scheduledDate data)) as [iso|] eqn:Hiso; [|done].
  cbn in Hfd. injection Hfd as <-.
  exists iso. eexists. split; [done|]. split; [done|].
  split; [done|]. split; [cbn; by rewrite length_imap|].
  intros i image Hi.
  change (imap (λ index image0, (imageKey index, EntryFile image0))
               (uploadedImages st) !! i
          = Some (imageKey i, EntryFile image)).
  by rewrite list_lookup_imap, Hi.
Qed.

(** C4: when the response to the submit of a validated draft is a 2xx one,
    the success notification is shown, every field is back at its initial
    empty value and no attachment is left; a submit pressed right after
    fails validation (the title, for one, is missing) and sends nothing. *)
Theorem C4_success_resets_the_draft (st : State) (data : FormData)
    (status : Z) (body : option value) :
  isSubmitting st = false →
  safeParse canParseURL (values st) = inr data →
  200 ≤ status ≤ 299 →
  let st1 := step canParseURL SubmitPressed st in
  let st2 := step canParseURL (SubmitSettled (Response status body)) st1 in
  let st3 := step canParseURL SubmitPressed st2 in
  toasts st2 = toasts st ++ [submitSucceeded]
  ∧ values st2 = defaultValues
  ∧ uploadedImages st2 = []
  ∧ isSubmitting st2 = false
  ∧ violates canParseURL TitleRequired (values st2)
  ∧ is_Some (errors st3 !! "postTitle")
  ∧ requests st3 = requests st2
  ∧ values st3 = defaultValues.
Proof.
  intros Hidle Hvalid Hok. cbv zeta.
  destruct (press_valid st data Hidle Hvalid) as (formData & _ & ->).
  set (st1 := fetchSubmit _ _).
  set (st2 := step canParseURL (SubmitSettled _) st1).
  assert (Hst2 : st2 = setIsSubmitting false
                         (setUploadedImages []
                            (form_reset (toast submitSucceeded (resumeSubmit st1))))).
  { subst st2 st1. cbn [step pendingSubmits fetchSubmit].
    unfold onSubmit_settled, ok.
    by rewrite (proj2 (Z.leb_le _ _) (proj1 Hok)), (proj2 (Z.leb_le _ _) (proj2 Hok)). }
  assert (Hv2 : values st2 = defaultValues) by (by rewrite Hst2).
  assert (Hidle2 : isSubmitting st2 = false) by (by rewrite Hst2).
  assert (Hmissing : violates canParseURL TitleRequired defaultValues).
  { cbn. intros (s & Hs & Hne). by simplify_eq. }
  destruct (violates_issue canParseURL TitleRequired defaultValues Hmissing)
    as (iss & Hin & Hkey).
  assert (Hne : (formSchema canParseURL (values st2)).1 ≠ []).
  { rewrite Hv2. intros Hnil. rewrite Hnil in Hin. by apply elem_of_nil in Hin. }
  cbn [step]. rewrite Hidle2, handleSubmit_invalid by done.
  cbn [errors requests values setErrors]. rewrite Hv2.
  split; [by rewrite Hst2|]. split; [done|]. split; [by rewrite Hst2|].
  split; [done|]. split; [done|]. split; [|done].
  change "postTitle" with (fieldKey (ruleField TitleRequired)).
  rewrite <- Hkey. by apply parseErrorSchema_elem.
Qed.

(** C3: however a submission fails (a response outside 2xx, a transport
    failure, or a serialiser that throws), the failure notification is
    shown and every field of the draft and every attachment is as it was
    before the submit. *)
Theorem C3_failure_keeps_the_draft (st st' : State) :
  submissionFails canParseURL st st' →
  toasts st' = toasts st ++ [submitFailed]
  ∧ values st' = values st
  ∧ uploadedImages st' = uploadedImages st
  ∧ isSubmitting st' = false.
Proof.
  intros H. inversion H as [st0 data status body Hidle Hvalid Hbad
                           |st0 data Hidle Hvalid
                           |st0 data Hthrow]; subst.
  - destruct (press_valid st data Hidle Hvalid) as (formData & _ & ->).
    cbn [step pendingSubmits fetchSubmit]. unfold onSubmit_settled.
    assert (ok status = false) as ->; [|done].
    unfold ok. apply andb_false_iff.
    destruct (decide (200 ≤ status)); [right|left]; apply Z.leb_gt; lia.
  - by destruct (press_valid st data Hidle Hvalid) as (formData & _ & ->).
  - unfold onSubmit, buildFormData. by rewrite Hthrow.
Qed.

End Submission.

(** C5 at work: the launch draft. *)
Lemma C5_one_multipart_post_witness :
  let st' := step httpLike SubmitPressed launchDraft in
  values launchDraft = snapshotOf launchData
  ∧ ∃ iso entries,
      toISOString (data_scheduledDate launchData) = Some iso
      ∧ requests st'
        = requests launchDraft
          ++ [mkRequest (data_webhookUrl launchData) "POST" [] (MultipartBody entries)]
      ∧ take 5 entries
        = [("postTitle", EntryText (data_postTitle launchData));
           ("caption", EntryText (data_caption launchData));
           ("hashtags", EntryText (default "" (data_hashtags launchData)));
           ("platforms", EntryText (JSON_stringify_strings (data_platforms launchData)));
           ("scheduledDate", EntryText iso)]
      ∧ length entries = (5 + length (uploadedImages launchDraft))%nat
      ∧ ∀ i image, uploadedImages launchDraft !! i = Some image →
                   entries !! (5 + i)%nat
                   = Some ("image_" +:+ NilEmpty.string_of_uint (Nat.to_uint i),
                           EntryFile image).
Proof.
  apply (C5_one_multipart_post httpLike launchDraft launchData); reflexivity.
Defined.

(** The request of the scenario, spelled out. *)
Example launch_request :
  requests (step httpLike SubmitPressed launchDraft)
  = [mkRequest "https://example.com/hook" "POST" []
       (MultipartBody
          [("postTitle", EntryText "Launch");
           ("caption", EntryText "We shipped!");
           ("hashtags", EntryText "#launch");
           ("platforms", EntryText ("[" +:+ dquote +:+ "facebook" +:+ dquote +:+ "]"));
           ("scheduledDate", EntryText "2027-01-01T00:00:00.000Z");
           ("image_0", EntryFile (jpegFile "launch.jpg" 123456))])].
Proof. reflexivity. Qed.

(** C4 at work: the launch draft answered with status 200. *)
Lemma C4_success_resets_the_draft_witness :
  let st1 := step httpLike SubmitPressed launchDraft in
  let st2 := step httpLike (SubmitSettled (Response 200 None)) st1 in
  let st3 := step httpLike SubmitPressed st2 in
  toasts st2 = toasts launchDraft ++ [submitSucceeded]
  ∧ values st2 = defaultValues
  ∧ uploadedImages st2 = []
  ∧ isSubmitting st2 = false
  ∧ violates httpLike TitleRequired (values st2)
  ∧ is_Some (errors st3 !! "postTitle")
  ∧ requests st3 = requests st2
  ∧ values st3 = defaultValues.
Proof.
  apply (C4_success_resets_the_draft httpLike launchDraft launchData 200 None);
    [reflexivity|reflexivity|lia].
Defined.

(** C3 at work: the launch draft answered with status 500. *)
Lemma C3_failure_keeps_the_draft_witness :
  let st' := step httpLike (SubmitSettled (Response 500 None))
                  (step httpLike SubmitPressed launchDraft) in
  toasts st' = toasts launchDraft ++ [submitFailed]
  ∧ values st' = values launchDraft
  ∧ uploadedImages st' = uploadedImages launchDraft
  ∧ isSubmitting st' = false.
Proof.
  apply (C3_failure_keeps_the_draft httpLike launchDraft).
  apply (fails_by_status httpLike launchDraft launchData 500 None);
    [reflexivity|reflexivity|lia].
Defined.

(** ** AI assist *)

Example blank_prompts :
  promptIsBlank "" = true
  ∧ promptIsBlank "   " = true
  ∧ promptIsBlank " launch day " = false
  ∧ trim " launch day " = "launch day".
Proof. repeat split; reflexivity. Qed.

(** A blank prompt is refused before any request is made. *)
Lemma handleAIGenerate_blank (st : State) :
  promptIsBlank (aiPrompt st) = true →
  handleAIGenerate st = toast enterPrompt st.
Proof. intros H. unfold handleAIGenerate. by rewrite H. Qed.

(** C6, as stated, fails on two counts.  A 2xx response whose JSON body
    is [null] makes the read of its caption throw: the failure notification
    is shown, the caption is not overwritten, the modal stays open and the
    prompt is kept.  And a body whose [caption] member is present but empty
    yields the [content] member, not the caption. *)
Lemma C6_null_body_takes_the_failure_path :
  let st := awaitingGeneration in
  let st' := step httpLike (GenerateSettled (Response 200 (Some VNull))) st in
  let both := VObj [("caption", VStr ""); ("content", VStr "alt")] in
  pendingGenerations st = 1%nat
  ∧ ok 200 = true
  ∧ toasts st' = toasts st ++ [generateFailed]
  ∧ caption (values st') = caption (values st)
  ∧ caption (values st') = VStr "We shipped!"
  ∧ showAIModal st' = true
  ∧ aiPrompt st' = "product launch"
  ∧ lookupProp "caption" [("caption", VStr ""); ("content", VStr "alt")] = Some (VStr "")
  ∧ caption (values (step httpLike (GenerateSettled (Response 200 (Some both))) st))
    = VStr "alt".
Proof. cbv zeta. repeat split; reflexivity. Qed.

(** C6, amended: for a 2xx response whose body is JSON other than [null],
    generate overwrites exactly the caption and the hashtags.  The caption
    becomes the [caption] member when that is truthy, else the [content]
    member when that is truthy, else the empty string; the hashtags become
    the [hashtags] member when truthy, else the empty string; a missing
    member raises no error.  Title, platforms, date and webhook URL stay as
    they were, the success notification is shown, the modal is closed and
    the prompt is cleared. *)
Theorem C6_generate_overwrites_caption_and_hashtags
    (st : State) (status : Z) (data : value) :
  200 ≤ status ≤ 299 →
  data ≠ VNull →
  data ≠ VUndefined →
  let st' := handleAIGenerate_settled (Response status (Some data)) st in
  let member k := default VUndefined (getProp data k) in
  caption (values st') = js_or (member "caption") (js_or (member "content") (VStr ""))
  ∧ hashtags (values st') = js_or (member "hashtags") (VStr "")
  ∧ postTitle (values st') = postTitle (values st)
  ∧ platforms (values st') = platforms (values st)
  ∧ scheduledDate (values st') = scheduledDate (values st)
  ∧ webhookUrl (values st') = webhookUrl (values st)
  ∧ toasts st' = toasts st ++ [generateSucceeded]
  ∧ showAIModal st' = false
  ∧ aiPrompt st' = ""
  ∧ isGenerating st' = false.
Proof.
  intros Hok Hnull Hundef. cbv zeta.
  unfold handleAIGenerate_settled, ok.
  rewrite (proj2 (Z.leb_le _ _) (proj1 Hok)), (proj2 (Z.leb_le _ _) (proj2 Hok)).
  cbn [andb negb].
  assert (Hprop : ∀ k, ∃ x, getProp data k = Some x).
  { intros k. destruct data; cbn; eauto; done. }
  unfold captionOf, hashtagsOf.
  destruct (Hprop "caption") as [c Hc], (Hprop "content") as [k Hk],
           (Hprop "hashtags") as [h Hh].
  rewrite Hc, Hk, Hh. cbn [mbind option_bind default].
  unfold js_or, id.
  destruct (truthy c) eqn:Ec, (truthy k) eqn:Ek, (truthy h) eqn:Eh;
    cbn; rewrite ?Ec, ?Ek, ?Eh; repeat split; done.
Qed.

(** C6 at work: a body with only a [content] member. *)
Lemma C6_generate_overwrites_caption_and_hashtags_witness :
  let data := VObj [("content", VStr "Big news!")] in
  let st' := handleAIGenerate_settled (Response 200 (Some data)) awaitingGeneration in
  let member k := default VUndefined (getProp data k) in
  caption (values st') = js_or (member "caption") (js_or (member "content") (VStr ""))
  ∧ hashtags (values st') = js_or (member "hashtags") (VStr "")
  ∧ postTitle (values st') = postTitle (values awaitingGeneration)
  ∧ platforms (values st') = platforms (values awaitingGeneration)
  ∧ scheduledDate (values st') = scheduledDate (values awaitingGeneration)
  ∧ webhookUrl (values st') = webhookUrl (values awaitingGeneration)
  ∧ toasts st' = toasts awaitingGeneration ++ [generateSucceeded]
  ∧ showAIModal st' = false
  ∧ aiPrompt st' = ""
  ∧ isGenerating st' = false.
Proof.
  apply (C6_generate_overwrites_caption_and_hashtags awaitingGeneration 200
           (VObj [("content", VStr "Big news!")])); [lia|done|done].
Defined.

Section AssistThenSubmit.

Variable canParseURL : string → bool.


End AssistThenSubmit.


(** The one error of that submit, with the message of the schema. *)
Example long_caption_error :
  let st' := handleAIGenerate_settled (Response 200 (Some longCaptionBody))
               awaitingGeneration in
  errors (handleSubmit httpLike st')
  = {[ "caption" := mkFieldError "Caption must be under 2200 characters" too_big ]}.
Proof. by vm_compute. Qed.

(** * Further properties of the handlers *)

(** ** The attachment list *)

Lemma setUploadedImages_same (st : State) :
  setUploadedImages (uploadedImages st) st = st.
Proof. by destruct st. Qed.

(** X1: [removeImage] takes out exactly the element at the index: the
    elements before it stay where they are, the ones after it move down by
    one, nothing else of the state changes, and an index past the end
    changes nothing at all. *)
Theorem X1_removeImage_removes_one (st : State) (index : nat) :
  let imgs := uploadedImages st in
  let st' := removeImage index st in
  uploadedImages st' = take index imgs ++ drop (S index) imgs
  ∧ (∀ j, (j < index)%nat → uploadedImages st' !! j = imgs !! j)
  ∧ (∀ j, (index ≤ j)%nat → uploadedImages st' !! j = imgs !! S j)
  ∧ ((index < length imgs)%nat → S (length (uploadedImages st')) = length imgs)
  ∧ ((length imgs ≤ index)%nat → st' = st)
  ∧ toasts st' = toasts st ∧ values st' = values st ∧ requests st' = requests st.
Proof.
  cbv zeta. rewrite removeImage_delete.
  split; [apply delete_take_drop|].
  split; [intros j Hj; by apply list_lookup_delete_lt|].
  split; [intros j Hj; by apply list_lookup_delete_ge|].
  split.
  { intros Hlt. rewrite length_delete by (by apply lookup_lt_is_Some). lia. }
  split; [|done].
  intros Hge. unfold removeImage, filterIndexed.
  rewrite filterFrom_delete, Nat.sub_0_r by lia.
  rewrite delete_take_drop, take_ge, drop_ge, app_nil_r by lia.
  apply setUploadedImages_same.
Qed.

(** X2: adding one acceptable file to a list with room and then removing
    the last position gives back the state before the upload. *)
Theorem X2_upload_then_remove_last (st : State) (file : File.t) :
  acceptable file →
  (length (uploadedImages st) < 4)%nat →
  removeImage (length (uploadedImages st)) (handleImageUpload [file] st) = st.
Proof.
  intros Hok Hroom.
  assert (Hf : filter acceptable [file] = [file]).
  { rewrite filter_cons, decide_True by done. done. }
  rewrite handleImageUpload_fits by (rewrite Hf; cbn; lia).
  rewrite Hf. unfold removeImage, filterIndexed.
  cbn [uploadedImages setUploadedImages].
  rewrite filterFrom_delete, Nat.sub_0_r by lia.
  rewrite delete_middle, app_nil_r. by destruct st.
Qed.

Lemma X2_upload_then_remove_last_witness :
  removeImage (length (uploadedImages threeImages))
    (handleImageUpload [jpegFile "d.jpg" 4000] threeImages)
  = threeImages.
Proof.
  apply (X2_upload_then_remove_last threeImages (jpegFile "d.jpg" 4000)).
  - split; [by left|]. cbn. lia.
  - cbn. lia.
Defined.

(** X3: two uploads in a row give the same state as one upload of the two
    batches together, whenever the accepted files of both fit under the
    cap. *)
Theorem X3_uploads_compose (st : State) (first second : list File.t) :
  (length (filter acceptable (first ++ second)) + length (uploadedImages st) ≤ 4)%nat →
  handleImageUpload second (handleImageUpload first st)
  = handleImageUpload (first ++ second) st.
Proof.
  rewrite filter_app, length_app. intros H.
  rewrite (handleImageUpload_fits st first) by lia.
  rewrite handleImageUpload_fits
    by (cbn [uploadedImages setUploadedImages]; rewrite length_app; lia).
  rewrite (handleImageUpload_fits st (first ++ second))
    by (rewrite filter_app, length_app; lia).
  cbn. by rewrite filter_app, app_assoc.
Qed.

Lemma X3_uploads_compose_witness :
  handleImageUpload [pngFile "e.png" 5] (handleImageUpload mixedBatch initialState)
  = handleImageUpload (mixedBatch ++ [pngFile "e.png" 5]) initialState.
Proof.
  apply (X3_uploads_compose initialState mixedBatch [pngFile "e.png" 5]).
  vm_compute. lia.
Defined.

(** X4: whatever is selected, an upload keeps the attachments already in
    place as the front of the list, adds only acceptable files of the
    batch, and touches neither the draft nor the network. *)
Theorem X4_upload_keeps_existing (st : State) (files : list File.t) :
  let st' := handleImageUpload files st in
  uploadedImages st `prefix_of` uploadedImages st'
  ∧ (∀ file, file ∈ uploadedImages st' →
             file ∈ uploadedImages st ∨ (file ∈ files ∧ acceptable file))
  ∧ values st' = values st
  ∧ errors st' = errors st
  ∧ requests st' = requests st
  ∧ isSubmitting st' = isSubmitting st.
Proof.
  cbv zeta.
  destruct (decide (4 < length (filter acceptable files)
                        + length (uploadedImages st))%nat) as [Hover|Hfit].
  - rewrite handleImageUpload_over by done. cbn. split; [done|]. auto.
  - rewrite handleImageUpload_fits by lia. cbn.
    split; [by apply prefix_app_r|]. split; [|done].
    intros file [Hin|Hin]%elem_of_app; [by left|right].
    apply list_elem_of_filter in Hin. tauto.
Qed.

(** X5: a batch without any acceptable file (an empty selection included)
    changes nothing and shows nothing, even when the list is full. *)
Theorem X5_nothing_acceptable_is_a_no_op (st : State) (files : list File.t) :
  Forall (λ file, ¬ acceptable file) files →
  (length (uploadedImages st) ≤ 4)%nat →
  handleImageUpload files st = st.
Proof.
  intros Hnone Hlen.
  assert (Hf : filter acceptable files = []).
  { induction Hnone as [|f l Hf _ IH]; [done|].
    by rewrite filter_cons, decide_False. }
  rewrite handleImageUpload_fits by (rewrite Hf; cbn; lia).
  rewrite Hf, app_nil_r. apply setUploadedImages_same.
Qed.

Lemma X5_nothing_acceptable_is_a_no_op_witness :
  handleImageUpload
    [pngFile "huge.png" (15 * 1024 * 1024); File.make "clip.gif" "image/gif" 10]
    threeImages
  = threeImages.
Proof.
  apply (X5_nothing_acceptable_is_a_no_op threeImages).
  - repeat constructor; intros [[H|H] Hs]; cbn in *; try discriminate; lia.
  - cbn. lia.
Defined.

(** ** What the schema accepts *)

Lemma imap_strings_ok (f : nat → value → ParseReturn string) (l : list string) :
  (∀ i s, f i (VStr s) = ([], Some s)) →
  imap f (VStr <$> l) ≫= fst = [] ∧ mapM snd (imap f (VStr <$> l)) = Some l.
Proof.
  revert f. induction l as [|s l IH]; intros f Hf; [done|].
  rewrite fmap_cons, imap_cons, bind_cons, Hf.
  destruct (IH (f ∘ S)) as [Hi Ho]; [intros i s'; apply Hf|].
  split; [exact Hi|]. simpl. rewrite Ho. done.
Qed.

Section Acceptance.

Variable canParseURL : string → bool.

Lemma string_bounds_issues (lo hi : nat) (m1 m2 : string) (p : list PathSeg) (s : string) :
  (zString canParseURL [ck_min lo m1; ck_max hi m2] p (VStr s)).1 = []
  ↔ (lo ≤ String.length s ≤ hi)%nat.
Proof.
  unfold zString, fst. rewrite bind_cons, bind_singleton.
  unfold runStringCheck.
  destruct (Nat.ltb_spec (String.length s) lo), (Nat.ltb_spec hi (String.length s));
    cbn; split; intros; try done; lia.
Qed.

Lemma url_issues (msg : string) (p : list PathSeg) (s : string) :
  (zString canParseURL [ck_url msg] p (VStr s)).1 = [] ↔ canParseURL s = true.
Proof.
  unfold zString, fst. rewrite bind_singleton. cbn.
  by destruct (canParseURL s).
Qed.

Lemma platforms_issues (p : list PathSeg) (l : list string) :
  (platformsSchema canParseURL p (VArr (VStr <$> l))).1 = [] ↔ l ≠ [].
Proof.
  unfold platformsSchema, zArrayMin. cbn [fst].
  destruct (imap_strings_ok (λ i x, zString canParseURL [] (p ++ [Index i]) x) l)
    as [-> _]; [done|].
  rewrite app_nil_r, length_fmap. by destruct l.
Qed.

Lemma formSchema_snapshot_output (data : FormData) :
  (∃ ms, data_scheduledDate data = DateOf ms) →
  (formSchema canParseURL (snapshotOf data)).2 = Some data.
Proof.
  intros [ms Hms]. destruct data as [t c h pl d u]. cbn in Hms. subst d.
  unfold formSchema, snd. cbn [snapshotOf postTitle caption hashtags platforms
                                 scheduledDate webhookUrl data_postTitle data_caption
                                 data_hashtags data_platforms data_scheduledDate
                                 data_webhookUrl].
  unfold platformsSchema, zArrayMin.
  destruct (imap_strings_ok (λ i x, zString canParseURL [] ([Key "platforms"] ++ [Index i]) x) pl)
    as [_ Ho]; [done|].
  cbn [snd]. rewrite Ho. by destruct h.
Qed.

(** What passed validation is within the bounds of the schema. *)
Lemma safeParse_withinBounds (v : FieldValues) (data : FormData) :
  safeParse canParseURL v = inr data → withinBounds canParseURL data.
Proof.
  intros H. destruct (safeParse_snapshot canParseURL v data H) as [-> Hdate].
  apply safeParse_valid in H. apply (f_equal fst) in H.
  unfold formSchema in H. cbn [fst] in H.
  apply app_eq_nil in H as [Ht H]. apply app_eq_nil in H as [Hc H].
  apply app_eq_nil in H as [_ H]. apply app_eq_nil in H as [Hp H].
  apply app_eq_nil in H as [_ Hu].
  apply string_bounds_issues in Ht. apply string_bounds_issues in Hc.
  apply platforms_issues in Hp. apply url_issues in Hu.
  done.
Qed.

(** A store within the bounds passes validation. *)
Lemma withinBounds_safeParse (data : FormData) :
  withinBounds canParseURL data →
  safeParse canParseURL (snapshotOf data) = inr data.
Proof.
  intros (Ht & Hc & Hp & Hd & Hu).
  apply safeParse_valid.
  pose proof (formSchema_snapshot_output data Hd) as Hout.
  destruct (formSchema canParseURL (snapshotOf data)) as [iss out] eqn:E.
  cbn in Hout. subst out. f_equal.
  apply (f_equal fst) in E. cbn [fst] in E. rewrite <- E.
  unfold formSchema. cbn [fst].
  cbn [snapshotOf postTitle caption hashtags platforms scheduledDate webhookUrl].
  unfold postTitleSchema, captionSchema, webhookUrlSchema.
  rewrite (proj2 (string_bounds_issues _ _ _ _ _ _) Ht),
          (proj2 (string_bounds_issues _ _ _ _ _ _) Hc),
          (proj2 (platforms_issues _ _) Hp),
          (proj2 (url_issues _ _ _) Hu).
  destruct Hd as [ms ->]. by destruct (data_hashtags data).
Qed.

(** X6: the schema accepts a store exactly when it holds a title of 1 to
    100 characters, a caption of 1 to 2200, hashtags that are a string or
    absent, a non-empty array of strings as platforms, a valid date, and a
    URL the parser accepts; the snapshot handed on is then that store,
    field for field. *)
Theorem X6_schema_accepts_exactly (v : FieldValues) (data : FormData) :
  safeParse canParseURL v = inr data
  ↔ v = snapshotOf data ∧ withinBounds canParseURL data.
Proof.
  split.
  - intros H. split; [|by apply (safeParse_withinBounds v)].
    by destruct (safeParse_snapshot canParseURL v data H).
  - intros [-> H]. by apply withinBounds_safeParse.
Qed.

End Acceptance.

(** The bounds are inclusive: a title of exactly 100 characters passes, one
    of 101 does not. *)
Example title_of_100_and_101 :
  let draft n := setField f_postTitle (VStr (repeatChar "t" n)) (snapshotOf launchData) in
  (∃ data, safeParse httpLike (draft 100%nat) = inr data)
  ∧ (∃ iss, safeParse httpLike (draft 101%nat) = inl iss).
Proof. split; eexists; vm_compute; reflexivity. Qed.

Section UnvalidatedHashtags.

Variable canParseURL : string → bool.

Lemma hashtags_not_a_string (p : list PathSeg) (v : value) :
  v ≠ VUndefined → (∀ s, v ≠ VStr s) →
  (hashtagsSchema canParseURL p v).1
  = [mkIssue invalid_type p (invalidTypeMessage None zt_string v)].
Proof. intros Hu Hs. destruct v; try done. by destruct (Hs s). Qed.

(** X7: generate also writes hashtags that are not a string (an array of
    tags, a number) into the form as they come; the schema wants a string
    there, so the next submit records an error under the hashtags and
    sends nothing. *)
Theorem X7_generate_may_store_non_string_hashtags
    (st : State) (status : Z) (data h : value) :
  200 ≤ status ≤ 299 →
  getProp data "hashtags" = Some h →
  truthy h = true →
  (∀ s, h ≠ VStr s) →
  let st' := handleAIGenerate_settled (Response status (Some data)) st in
  let st'' := handleSubmit canParseURL st' in
  hashtags (values st') = h
  ∧ toasts st' = toasts st ++ [generateSucceeded]
  ∧ is_Some (errors st'' !! "hashtags")
  ∧ requests st'' = requests st'
  ∧ values st'' = values st'.
Proof.
  intros Hok Hh Htruthy Hnot. cbv zeta.
  assert (Hprop : ∀ k, ∃ x, getProp data k = Some x).
  { intros k. destruct data; cbn in *; eauto; done. }
  destruct (Hprop "caption") as [c Hc], (Hprop "content") as [k Hk].
  set (st' := handleAIGenerate_settled _ st).
  assert (Hst' : ∃ c0, st' = setIsGenerating false
                         (setAiPrompt ""
                            (setShowAIModal false
                               (toast generateSucceeded
                                  (form_setValue f_hashtags h
                                     (form_setValue f_caption c0 st)))))).
  { subst st'. unfold handleAIGenerate_settled, ok.
    rewrite (proj2 (Z.leb_le _ _) (proj1 Hok)), (proj2 (Z.leb_le _ _) (proj2 Hok)).
    cbn [andb negb]. unfold captionOf, hashtagsOf. rewrite Hc, Hk, Hh.
    cbn [mbind option_bind]. unfold js_or at 2. rewrite Htruthy.
    destruct (truthy c); eauto. }
  clearbody st'. destruct Hst' as [c0 ->].
  set (st' := setIsGenerating _ _).
  assert (Hv : hashtags (values st') = h) by done.
  assert (Hiss : mkIssue invalid_type [Key "hashtags"]
                   (invalidTypeMessage None zt_string h)
                 ∈ (formSchema canParseURL (values st')).1).
  { apply formSchema_issues. right; right; left.
    rewrite Hv, hashtags_not_a_string; [left|by destruct h|done]. }
  rewrite handleSubmit_invalid
    by (intros Hnil; rewrite Hnil in Hiss; by apply elem_of_nil in Hiss).
  cbn [errors requests values setErrors].
  split; [done|]. split; [done|]. split; [|done].
  by apply (parseErrorSchema_elem _ _ Hiss).
Qed.

End UnvalidatedHashtags.

Lemma X7_generate_may_store_non_string_hashtags_witness :
  let tags := VArr [VStr "#launch"; VStr "#news"] in
  let data := VObj [("caption", VStr "Big news!"); ("hashtags", tags)] in
  let st' := handleAIGenerate_settled (Response 200 (Some data)) awaitingGeneration in
  let st'' := handleSubmit httpLike st' in
  hashtags (values st') = tags
  ∧ toasts st' = toasts awaitingGeneration ++ [generateSucceeded]
  ∧ is_Some (errors st'' !! "hashtags")
  ∧ requests st'' = requests st'
  ∧ values st'' = values st'.
Proof.
  apply (X7_generate_may_store_non_string_hashtags httpLike awaitingGeneration 200
           (VObj [("caption", VStr "Big news!");
                  ("hashtags", VArr [VStr "#launch"; VStr "#news"])])
           (VArr [VStr "#launch"; VStr "#news"])); [lia|done|done|done].
Defined.

(** ** Platform selection *)

Lemma existsb_strings (id : string) (sel : list string) :
  existsb (λ x, strictEqualsString x id) (VStr <$> sel) = bool_decide (id ∈ sel).
Proof.
  induction sel as [|s sel IH]; [done|].
  rewrite fmap_cons. cbn [existsb strictEqualsString]. rewrite IH.
  destruct (String.eqb_spec s id) as [->|Hne].
  - cbn. symmetry. apply bool_decide_eq_true_2. left.
  - cbn. apply bool_decide_ext. rewrite elem_of_cons.
    split; [auto|]. intros [?|?]; [congruence|done].
Qed.

Lemma filter_strings (id : string) (sel : list string) :
  List.filter (λ x, negb (strictEqualsString x id)) (VStr <$> sel)
  = VStr <$> filter (λ s, s ≠ id) sel.
Proof.
  induction sel as [|s sel IH]; [done|].
  rewrite fmap_cons. cbn [List.filter strictEqualsString]. rewrite filter_cons, IH.
  destruct (String.eqb_spec s id) as [->|Hne]; cbn.
  - by rewrite decide_False by (intros H; by apply H).
  - by rewrite decide_True.
Qed.

(** A click on an array of strings: the id is taken out when it is in, and
    put at the end when it is not. *)
Lemma clickPlatform_strings (id : string) (sel : list string) :
  clickPlatform id (VArr (VStr <$> sel))
  = Some (VArr (VStr <$> (if bool_decide (id ∈ sel)
                          then filter (λ s, s ≠ id) sel
                          else sel ++ [id]))).
Proof.
  unfold clickPlatform. cbn [isSelected mbind option_bind truthy].
  rewrite existsb_strings. destruct (bool_decide (id ∈ sel)); cbn.
  - by rewrite filter_strings.
  - by rewrite fmap_app.
Qed.

Lemma existsb_filter_other (id id' : string) (items : list value) :
  id' ≠ id →
  existsb (λ x, strictEqualsString x id')
    (List.filter (λ x, negb (strictEqualsString x id)) items)
  = existsb (λ x, strictEqualsString x id') items.
Proof.
  intros Hne. induction items as [|x items IH]; [done|].
  cbn [List.filter existsb].
  destruct (strictEqualsString x id) eqn:Hx; cbn [negb existsb]; [|by rewrite IH].
  destruct x; try done. apply String.eqb_eq in Hx as ->.
  cbn [strictEqualsString].
  by rewrite (proj2 (String.eqb_neq id id')) by congruence.
Qed.

Lemma existsb_filter_same (id : string) (items : list value) :
  existsb (λ x, strictEqualsString x id)
    (List.filter (λ x, negb (strictEqualsString x id)) items) = false.
Proof.
  apply not_true_is_false. intros H.
  apply existsb_exists in H as (x & Hin & Hx).
  apply filter_In in Hin as [_ Hin]. by rewrite Hx in Hin.
Qed.

Lemma filter_sublist {A : Type} (p : A → bool) (l : list A) :
  List.filter p l `sublist_of` l.
Proof.
  induction l as [|x l IH]; [done|].
  cbn [List.filter]. destruct (p x); by constructor.
Qed.

(** X8: a click on a platform row flips the selection of that platform
    and of no other; the entries that stay keep their order, and a newly
    selected platform goes to the end. *)
Theorem X8_click_flips_one_platform (id : string) (items : list value) :
  let before id' := existsb (λ x, strictEqualsString x id') items in
  ∃ items',
    clickPlatform id (VArr items) = Some (VArr items')
    ∧ isSelected id (VArr items') = Some (VBool (negb (before id)))
    ∧ (∀ id', id' ≠ id → isSelected id' (VArr items') = isSelected id' (VArr items))
    ∧ (if before id
       then items' `sublist_of` items
       else items' = items ++ [VStr id]).
Proof.
  cbv zeta. unfold clickPlatform. cbn [isSelected mbind option_bind truthy].
  destruct (existsb (λ x, strictEqualsString x id) items) eqn:Hsel;
    cbn [negb onCheckedChange spread mbind option_bind]; eexists; split; try done.
  - split; [|split].
    + cbn. by rewrite existsb_filter_same.
    + intros id' Hne. cbn. by rewrite existsb_filter_other.
    + apply filter_sublist.
  - split; [|split; [|done]].
    + cbn. rewrite existsb_app. cbn. by rewrite String.eqb_refl, orb_true_r.
    + intros id' Hne. cbn. rewrite existsb_app. cbn.
      by rewrite (proj2 (String.eqb_neq id id')), !orb_false_r by congruence.
Qed.

Lemma clicksOn_cons (id id' : string) (ids : list string) :
  clicksOn id' (id :: ids)
  = ((if bool_decide (id = id') then 1 else 0) + clicksOn id' ids)%nat.
Proof.
  unfold clicksOn. rewrite filter_cons.
  case_decide; [by rewrite bool_decide_eq_true_2|by rewrite bool_decide_eq_false_2].
Qed.

Lemma clickPlatforms_strings (ids sel0 : list string) :
  NoDup sel0 →
  ∃ sel,
    clickPlatforms ids (VArr (VStr <$> sel0)) = Some (VArr (VStr <$> sel))
    ∧ NoDup sel
    ∧ ∀ id, bool_decide (id ∈ sel)
            = xorb (bool_decide (id ∈ sel0)) (Nat.odd (clicksOn id ids)).
Proof.
  revert sel0. induction ids as [|id ids IH]; intros sel0 Hnd.
  { exists sel0. split; [done|]. split; [done|].
    intros id. by rewrite xorb_false_r. }
  cbn [clickPlatforms]. rewrite clickPlatform_strings. cbn [mbind option_bind].
  set (sel1 := if bool_decide (id ∈ sel0) then _ else _).
  assert (Hnd1 : NoDup sel1).
  { subst sel1. case_bool_decide as Hin; [by apply NoDup_filter|].
    apply NoDup_app. split; [done|]. split; [|apply NoDup_singleton].
    intros x Hx ->%list_elem_of_singleton. done. }
  assert (Hmem : ∀ id', bool_decide (id' ∈ sel1)
                        = xorb (bool_decide (id' ∈ sel0)) (bool_decide (id = id'))).
  { intros id'. subst sel1. case_bool_decide as Hin.
    - destruct (decide (id = id')) as [<-|Hne].
      + rewrite (bool_decide_eq_true_2 (id ∈ sel0)), (bool_decide_eq_true_2 (id = id))
          by done.
        apply bool_decide_eq_false_2. rewrite list_elem_of_filter. tauto.
      + rewrite (bool_decide_eq_false_2 (id = id')), xorb_false_r by done.
        apply bool_decide_ext. rewrite list_elem_of_filter.
        split; [tauto|]. intros H. split; [congruence|done].
    - destruct (decide (id = id')) as [<-|Hne].
      + rewrite (bool_decide_eq_false_2 (id ∈ sel0)), (bool_decide_eq_true_2 (id = id))
          by done.
        apply bool_decide_eq_true_2. apply elem_of_app. right. left.
      + rewrite (bool_decide_eq_false_2 (id = id')), xorb_false_r by done.
        apply bool_decide_ext. rewrite elem_of_app, list_elem_of_singleton.
        split; [|tauto]. intros [?|?]; [done|congruence]. }
  destruct (IH sel1 Hnd1) as (sel & Hrun & Hnd' & Hpar).
  exists sel. split; [done|]. split; [done|].
  intros id'. rewrite Hpar, Hmem, clicksOn_cons.
  destruct (bool_decide (id = id')); cbn [Nat.add].
  - rewrite Nat.odd_succ, <- Nat.negb_odd.
    by destruct (bool_decide (id' ∈ sel0)), (Nat.odd (clicksOn id' ids)).
  - by rewrite xorb_false_r.
Qed.

(** X9: starting from the empty selection of a fresh form, any sequence of
    clicks on platform rows leaves an array of strings without repetition,
    and a platform is in it exactly when it was clicked an odd number of
    times; no click throws. *)
Theorem X9_clicks_keep_a_duplicate_free_selection (ids : list string) :
  ∃ sel,
    clickPlatforms ids (platforms defaultValues) = Some (VArr (VStr <$> sel))
    ∧ NoDup sel
    ∧ ∀ id, id ∈ sel ↔ Nat.odd (clicksOn id ids) = true.
Proof.
  destruct (clickPlatforms_strings ids [] (NoDup_nil_2 (A:=string))) as (sel & Hrun & Hnd & Hpar).
  exists sel. split; [exact Hrun|]. split; [done|].
  intros id. specialize (Hpar id).
  rewrite (bool_decide_eq_false_2 (id ∈ [])) in Hpar by apply not_elem_of_nil.
  cbn in Hpar. rewrite <- Hpar. by rewrite bool_decide_eq_true.
Qed.

Example clicks_on_three_rows :
  clickPlatforms ["facebook"; "linkedin"; "facebook"; "instagram"]
    (platforms defaultValues)
  = Some (VArr [VStr "linkedin"; VStr "instagram"]).
Proof. reflexivity. Qed.

(** ** The generate handler *)

Lemma trimEnd_empty (s : string) : trimEnd s = "" ↔ allWhiteSpace s = true.
Proof.
  induction s as [|c s IH]; [done|].
  cbn [trimEnd allWhiteSpace]. rewrite andb_true_iff, <- IH.
  destruct (isWhiteSpace c); cbn [andb].
  - destruct (String.eqb_spec (trimEnd s) ""); split; intros; try done; tauto.
  - split; [done|]. by intros [? _].
Qed.

Lemma allWhiteSpace_trimStart (s : string) :
  allWhiteSpace (trimStart s) = allWhiteSpace s.
Proof.
  induction s as [|c s IH]; [done|].
  cbn [trimStart]. destruct (isWhiteSpace c) eqn:Hc; [|done].
  cbn [allWhiteSpace]. by rewrite Hc, IH.
Qed.

(** The test [!aiPrompt.trim ()] holds exactly for the prompts made of
    white space only. *)
Lemma promptIsBlank_spec (s : string) : promptIsBlank s = allWhiteSpace s.
Proof.
  unfold promptIsBlank, trim. rewrite <- allWhiteSpace_trimStart.
  destruct (String.eqb_spec (trimEnd (trimStart s)) "") as [H|H].
  - symmetry. by apply trimEnd_empty.
  - symmetry. apply not_true_is_false. intros Hw. by apply trimEnd_empty in Hw.
Qed.

(** X10: [handleAIGenerate] dispatches a request exactly when the prompt
    has a character that is not white space: then one JSON POST of the
    prompt goes to the fixed endpoint and the generating flag is set;
    otherwise only the enter-a-prompt warning is shown. *)
Theorem X10_generate_needs_a_visible_prompt (st : State) :
  if allWhiteSpace (aiPrompt st) then
    handleAIGenerate st = toast enterPrompt st
  else
    requests (handleAIGenerate st)
    = requests st
      ++ [mkRequest aiEndpoint "POST" [("Content-Type", "application/json")]
            (TextBody ("{" +:+ dquote +:+ "prompt" +:+ dquote +:+ ":"
                       +:+ quoteJSONString (aiPrompt st) +:+ "}"))]
    ∧ isGenerating (handleAIGenerate st) = true
    ∧ pendingGenerations (handleAIGenerate st) = S (pendingGenerations st)
    ∧ toasts (handleAIGenerate st) = toasts st
    ∧ values (handleAIGenerate st) = values st.
Proof.
  unfold handleAIGenerate. rewrite promptIsBlank_spec.
  by destruct (allWhiteSpace (aiPrompt st)).
Qed.

(** X11: when the awaited generation request is rejected, answered
    outside 2xx, answered with a body that is not JSON, or answered with
    [null], the failure notification is shown, the form is untouched, the
    modal and the prompt stay as they are, and the generating flag is
    cleared. *)
Theorem X11_failed_generation_keeps_everything (st : State) (r : FetchResult) :
  generationFails r →
  let st' := handleAIGenerate_settled r st in
  toasts st' = toasts st ++ [generateFailed]
  ∧ values st' = values st
  ∧ showAIModal st' = showAIModal st
  ∧ aiPrompt st' = aiPrompt st
  ∧ uploadedImages st' = uploadedImages st
  ∧ isGenerating st' = false.
Proof.
  intros H. cbv zeta. inversion H as [|status body Hbad|status|status]; subst.
  - done.
  - unfold handleAIGenerate_settled.
    assert (ok status = false) as ->; [|done].
    unfold ok. apply andb_false_iff.
    destruct (decide (200 ≤ status)); [right|left]; apply Z.leb_gt; lia.
  - unfold handleAIGenerate_settled. by destruct (ok status).
  - unfold handleAIGenerate_settled. by destruct (ok status).
Qed.

Lemma X11_failed_generation_keeps_everything_witness :
  let st' := handleAIGenerate_settled (Response 200 None) awaitingGeneration in
  toasts st' = toasts awaitingGeneration ++ [generateFailed]
  ∧ values st' = values awaitingGeneration
  ∧ showAIModal st' = showAIModal awaitingGeneration
  ∧ aiPrompt st' = aiPrompt awaitingGeneration
  ∧ uploadedImages st' = uploadedImages awaitingGeneration
  ∧ isGenerating st' = false.
Proof.
  apply (X11_failed_generation_keeps_everything awaitingGeneration (Response 200 None)).
  apply gen_not_json.
Defined.

(** ** Invariants of the running component *)

Section Running.

Variable canParseURL : string → bool.

Lemma step_singleGeneration (e : Event) (st : State) :
  singleGeneration st → singleGeneration (step canParseURL e st).
Proof.
  unfold singleGeneration. intros H.
  destruct e; cbn [step]; try done.
  - unfold handleImageUpload. cbv zeta. by destruct (_ <? _)%nat.
  - destruct (isSubmitting st); [done|].
    unfold handleSubmit, onSubmit, onSubmit_catch. cbv zeta. by handler_cases.
  - destruct (pendingSubmits st); [done|].
    unfold onSubmit_settled, onSubmit_catch. cbn. by handler_cases.
  - by destruct (showAIModal st).
  - by destruct (showAIModal st).
  - destruct (showAIModal st); [|done]. cbn [andb].
    destruct (isGenerating st) eqn:Hgen; cbn [orb negb]; [by rewrite Hgen|].
    destruct (promptIsBlank (aiPrompt st)) eqn:Hblank; cbn [negb];
      [by rewrite Hgen|].
    unfold handleAIGenerate. rewrite Hblank. cbn. by rewrite H.
  - destruct (pendingGenerations st) as [|n] eqn:Hn; [by rewrite Hn|].
    destruct (isGenerating st); [|done]. injection H as ->.
    unfold handleAIGenerate_settled, handleAIGenerate_catch. cbn.
    handler_cases; by rewrite Hn.
Qed.

(** X12: in every state the component can reach, at most one generation
    request is awaiting its response, one is awaiting exactly when the
    generating flag is set, and while it is set a press on Generate does
    nothing. *)
Theorem X12_single_flight_generation (es : list Event) :
  let st := run canParseURL es initialState in
  (pendingGenerations st ≤ 1)%nat
  ∧ (pendingGenerations st = 1%nat ↔ isGenerating st = true)
  ∧ (isGenerating st = true → step canParseURL GeneratePressed st = st).
Proof.
  intros st.
  assert (H : singleGeneration st).
  { subst st. generalize initialState, (eq_refl : singleGeneration initialState).
    induction es as [|e es IH]; intros s Hs; [done|].
    cbn. apply IH. by apply step_singleGeneration. }
  unfold singleGeneration in H.
  destruct (isGenerating st) eqn:Hgen; rewrite H.
  - split; [lia|]. split; [done|]. intros _. cbn [step].
    by rewrite Hgen, orb_true_l, andb_false_r.
  - split; [lia|]. split; [split; intros; discriminate|]. intros; discriminate.
Qed.

Lemma step_requests (e : Event) (st : State) :
  Forall (wellFormedRequest canParseURL) (requests st) →
  Forall (wellFormedRequest canParseURL) (requests (step canParseURL e st)).
Proof.
  intros H. destruct e; cbn [step]; try done.
  - unfold handleImageUpload. cbv zeta. by destruct (_ <? _)%nat.
  - destruct (isSubmitting st); [done|].
    unfold handleSubmit, zodResolver.
    destruct (safeParse canParseURL (values st)) as [iss|data] eqn:Hparse;
      cbn [res_errors res_values].
    + by destruct (bool_decide _).
    + rewrite bool_decide_eq_true_2 by done.
      unfold onSubmit, onSubmit_catch.
      destruct (buildFormData _ _); cbn; [|done].
      apply Forall_app. split; [done|]. constructor; [|constructor].
      split; [done|]. cbn. split; [|done].
      by destruct (safeParse_withinBounds canParseURL _ _ Hparse) as (_ & _ & _ & _ & ?).
  - destruct (pendingSubmits st); [done|].
    unfold onSubmit_settled, onSubmit_catch. cbn. by handler_cases.
  - by destruct (showAIModal st).
  - by destruct (showAIModal st).
  - destruct (showAIModal st); [|done]. cbn [andb].
    destruct (isGenerating st); [done|]. cbn [orb].
    destruct (promptIsBlank (aiPrompt st)) eqn:Hblank; cbn [negb]; [done|].
    unfold handleAIGenerate. rewrite Hblank. cbn.
    apply Forall_app. split; [done|]. constructor; [|constructor].
    split; [done|]. cbn. split; [done|]. eauto.
  - destruct (pendingGenerations st); [done|].
    unfold handleAIGenerate_settled, handleAIGenerate_catch. cbn.
    by handler_cases.
Qed.

(** X13: every request the component ever makes is a POST, and it is
    either a multipart submission to a webhook URL that passed the URL
    check of the schema, sent without extra headers, or the JSON of a
    prompt that is not blank, sent to the fixed generation endpoint. *)
Theorem X13_requests_are_well_formed (es : list Event) :
  Forall (wellFormedRequest canParseURL) (requests (run canParseURL es initialState)).
Proof.
  generalize initialState, (Forall_nil_2 (wellFormedRequest canParseURL)
                            : Forall _ (requests initialState)).
  induction es as [|e es IH]; intros s Hs; [done|].
  cbn. apply IH. by apply step_requests.
Qed.

Lemma step_no_prompt_warning (e : Event) (st : State) :
  enterPrompt ∉ toasts st → enterPrompt ∉ toasts (step canParseURL e st).
Proof.
  intros H.
  assert (Hadd : ∀ t, t ≠ enterPrompt → enterPrompt ∉ toasts st ++ [t]).
  { intros t Ht [?|Hin%list_elem_of_singleton]%elem_of_app; [done|congruence]. }
  destruct e; cbn [step]; try done.
  - unfold handleImageUpload. cbv zeta. destruct (_ <? _)%nat; [|done]. by apply Hadd.
  - destruct (isSubmitting st); [done|].
    unfold handleSubmit, onSubmit, onSubmit_catch. cbv zeta.
    handler_cases. by apply Hadd.
  - destruct (pendingSubmits st); [done|].
    unfold onSubmit_settled, onSubmit_catch. cbn.
    handler_cases; by apply Hadd.
  - by destruct (showAIModal st).
  - by destruct (showAIModal st).
  - destruct (showAIModal st); [|done]. cbn [andb].
    destruct (isGenerating st); [done|]. cbn [orb].
    destruct (promptIsBlank (aiPrompt st)) eqn:Hblank; cbn [negb]; [done|].
    unfold handleAIGenerate. by rewrite Hblank.
  - destruct (pendingGenerations st); [done|].
    unfold handleAIGenerate_settled, handleAIGenerate_catch. cbn.
    handler_cases; by apply Hadd.
Qed.

(** X14: the enter-a-prompt warning of [handleAIGenerate] is never shown:
    the only control bound to the handler is disabled while the prompt is
    blank, so the handler is reached with a prompt that is not. *)
Theorem X14_prompt_warning_is_never_shown (es : list Event) :
  enterPrompt ∉ toasts (run canParseURL es initialState).
Proof.
  generalize initialState, (not_elem_of_nil enterPrompt : enterPrompt ∉ toasts initialState).
  induction es as [|e es IH]; intros s Hs; [done|].
  cbn. apply IH. by apply step_no_prompt_warning.
Qed.

End Running.

(** ** The payload *)

Lemma imageKey_inj (i j : nat) : imageKey i = imageKey j → i = j.
Proof.
  unfold imageKey. intros H. injection H as H.
  change (NilEmpty.string_of_uint (Nat.to_uint i)
          = NilEmpty.string_of_uint (Nat.to_uint j)) in H.
  apply (f_equal NilEmpty.uint_of_string) in H.
  rewrite !NilEmpty.usu in H. injection H as H.
  apply (f_equal Nat.of_uint) in H. by rewrite !Unsigned.of_to in H.
Qed.

Lemma imageKeys_seq (images : list File.t) :
  (imap (λ index image, (imageKey index, EntryFile image)) images).*1
  = imageKey <$> seq 0 (length images).
Proof.
  apply list_eq. intros i.
  rewrite !list_lookup_fmap, list_lookup_imap.
  destruct (images !! i) as [image|] eqn:Hi; cbn.
  - by rewrite lookup_seq_lt by (by eapply lookup_lt_Some).
  - by rewrite lookup_seq_ge by (by apply lookup_ge_None).
Qed.

(** X15: the field names of a submission payload are pairwise distinct:
    the five text fields and one name per attachment, however many
    attachments there are. *)
Theorem X15_payload_field_names_are_distinct
    (data : FormData) (images : list File.t)
    (entries : list (string * FormDataEntryValue)) :
  buildFormData data images = Some entries →
  NoDup entries.*1 ∧ length entries = (5 + length images)%nat.
Proof.
  unfold buildFormData. intros H.
  destruct (toISOString (data_scheduledDate data)) as [iso|]; [|done].
  cbn in H. injection H as <-.
  split; [|cbn; by rewrite length_imap].
  rewrite !fmap_cons, imageKeys_seq. cbn [fst].
  change (NoDup (["postTitle"; "caption"; "hashtags"; "platforms"; "scheduledDate"]
                 ++ (imageKey <$> seq 0 (length images)))).
  apply NoDup_app. split; [compute_done|]. split.
  - intros key Hkey [i [-> _]]%list_elem_of_fmap.
    revert Hkey. rewrite !elem_of_cons, elem_of_nil. unfold imageKey.
    intros [H|[H|[H|[H|[H|[]]]]]]; discriminate H.
  - apply NoDup_fmap_2; [|apply NoDup_seq].
    intros i j. apply imageKey_inj.
Qed.

Lemma X15_payload_field_names_are_distinct_witness :
  ∃ entries,
    buildFormData launchData (uploadedImages threeImages) = Some entries
    ∧ NoDup entries.*1
    ∧ length entries = (5 + length (uploadedImages threeImages))%nat.
Proof.
  eexists. split; [reflexivity|].
  by apply (X15_payload_field_names_are_distinct launchData (uploadedImages threeImages)).
Defined.

(** ** Submitting *)

Section Submitting.

Variable canParseURL : string → bool.

(** X16: a submit dispatches a request exactly when the whole draft
    validates: then exactly one request is added and the stored errors are
    cleared; otherwise none is added and the field values stay as they
    are. *)
Theorem X16_submit_sends_iff_the_draft_validates (st : State) :
  let st' := handleSubmit canParseURL st in
  match safeParse canParseURL (values st) with
  | inr data =>
      ∃ entries,
        requests st'
        = requests st
          ++ [mkRequest (data_webhookUrl data) "POST" [] (MultipartBody entries)]
        ∧ errors st' = ∅
        ∧ isSubmitting st' = true
  | inl iss =>
      requests st' = requests st
      ∧ values st' = values st
      ∧ isSubmitting st' = isSubmitting st
      ∧ errors st' = parseErrorSchema iss
  end.
Proof.
  cbv zeta.
  destruct (safeParse canParseURL (values st)) as [iss|data] eqn:Hparse.
  - unfold handleSubmit, zodResolver. rewrite Hparse. cbn [res_errors res_values].
    by destruct (bool_decide _).
  - rewrite (handleSubmit_valid _ _ _ Hparse).
    destruct (safeParse_snapshot _ _ _ Hparse) as [_ [ms Hms]].
    destruct (toISOString_valid ms) as [iso Hiso].
    unfold onSubmit, buildFormData. cbn [uploadedImages setIsSubmitting setErrors].
    rewrite Hms, Hiso. cbn [mbind option_bind]. eauto.
Qed.

(** X17: when the rest of the draft validates and a 2xx response brings a
    caption string of 1 to 2200 characters and a hashtags string, the
    generated text is what the next submit sends: the draft validates with
    that caption and those hashtags and everything else as before, and the
    one request of the submit carries them. *)
Theorem X17_generated_text_is_what_gets_submitted
    (st : State) (data0 : FormData) (status : Z) (body : value) (c h : string) :
  safeParse canParseURL (values st) = inr data0 →
  200 ≤ status ≤ 299 →
  getProp body "caption" = Some (VStr c) →
  getProp body "hashtags" = Some (VStr h) →
  (1 ≤ String.length c ≤ 2200)%nat →
  let st' := handleAIGenerate_settled (Response status (Some body)) st in
  safeParse canParseURL (values st')
  = inr (mkFormData (data_postTitle data0) c (Some h) (data_platforms data0)
           (data_scheduledDate data0) (data_webhookUrl data0))
  ∧ ∃ entries,
      requests (handleSubmit canParseURL st')
      = requests st
        ++ [mkRequest (data_webhookUrl data0) "POST" [] (MultipartBody entries)]
      ∧ entries !! 1%nat = Some ("caption", EntryText c)
      ∧ entries !! 2%nat = Some ("hashtags", EntryText h).
Proof.
  intros Hparse Hok Hc Hh Hlen. cbv zeta.
  destruct (safeParse_snapshot _ _ _ Hparse) as [Hsnap _].
  destruct (safeParse_withinBounds _ _ _ Hparse) as (Ht & _ & Hp & Hd & Hu).
  set (data := mkFormData _ c _ _ _ _).
  set (st' := handleAIGenerate_settled _ st).
  assert (Hst' : st' = setIsGenerating false
                         (setAiPrompt ""
                            (setShowAIModal false
                               (toast generateSucceeded
                                  (form_setValue f_hashtags (VStr h)
                                     (form_setValue f_caption (VStr c) st)))))).
  { subst st'. unfold handleAIGenerate_settled, ok.
    rewrite (proj2 (Z.leb_le _ _) (proj1 Hok)), (proj2 (Z.leb_le _ _) (proj2 Hok)).
    cbn [andb negb]. unfold captionOf, hashtagsOf. rewrite Hc, Hh.
    cbn [mbind option_bind truthy].
    destruct c as [|c0 c]; [cbn in Hlen; lia|]. cbn [String.eqb negb].
    assert (js_or (VStr h) (VStr "") = VStr h) as ->; [|done].
    unfold js_or. cbn [truthy]. by destruct (String.eqb_spec h "") as [->|]. }
  clearbody st'.
  assert (Hvalues : values st' = snapshotOf data).
  { rewrite Hst'. cbn. by rewrite Hsnap. }
  assert (Hvalid : safeParse canParseURL (values st') = inr data).
  { rewrite Hvalues. by apply withinBounds_safeParse. }
  split; [done|].
  rewrite (handleSubmit_valid _ _ _ Hvalid).
  destruct Hd as [ms Hms]. destruct (toISOString_valid ms) as [iso Hiso].
  unfold onSubmit, buildFormData. cbn [uploadedImages setIsSubmitting setErrors].
  cbn [data data_scheduledDate]. rewrite Hms, Hiso. cbn [mbind option_bind].
  eexists. split; [by rewrite Hst'|]. done.
Qed.

End Submitting.

Lemma X17_generated_text_is_what_gets_submitted_witness :
  let body := VObj [("caption", VStr "Big news!"); ("hashtags", VStr "#news")] in
  let st' := handleAIGenerate_settled (Response 200 (Some body)) awaitingGeneration in
  safeParse httpLike (values st')
  = inr (mkFormData (data_postTitle launchData) "Big news!" (Some "#news")
           (data_platforms launchData) (data_scheduledDate launchData)
           (data_webhookUrl launchData))
  ∧ ∃ entries,
      requests (handleSubmit httpLike st')
      = requests awaitingGeneration
        ++ [mkRequest (data_webhookUrl launchData) "POST" [] (MultipartBody entries)]
      ∧ entries !! 1%nat = Some ("caption", EntryText "Big news!")
      ∧ entries !! 2%nat = Some ("hashtags", EntryText "#news").
Proof.
  apply (X17_generated_text_is_what_gets_submitted httpLike awaitingGeneration
           launchData 200
           (VObj [("caption", VStr "Big news!"); ("hashtags", VStr "#news")])
           "Big news!" "#news"); [reflexivity|lia|reflexivity|reflexivity|cbn; lia].
Defined.

(** ** Single flight, moment by moment *)

Section Turns.

Variable canParseURL : string → bool.

(** The rest of [form.handleSubmit] after the resolver, called from the
    render of the state it runs on, is the second half of [handleSubmit]. *)
Lemma resumeHandleSubmit_handleSubmit (st : State) :
  resumeHandleSubmit (mkSuspended (zodResolver canParseURL (values st)) st) st
  = handleSubmit canParseURL st.
Proof. reflexivity. Qed.

(** One turn of a component at rest is one [step], and leaves it at rest. *)
Lemma turn_is_step (e : Event) (st : State) :
  turn canParseURL e (atRest st) = atRest (step canParseURL e st).
Proof.
  unfold turn, moments, atRest.
  destruct e; cbn [fold_left moment arrive step now shown awaiting setNow]; try done.
  - destruct (isSubmitting st); [done|]. cbn. by rewrite resumeHandleSubmit_handleSubmit.
  - by destruct (pendingSubmits st).
  - by destruct (showAIModal st).
  - by destruct (showAIModal st).
  - by destruct (showAIModal st && negb (isGenerating st || promptIsBlank (aiPrompt st))).
  - by destruct (pendingGenerations st).
Qed.

Lemma turns_are_run (es : list Event) (st : State) :
  turns canParseURL es (atRest st) = atRest (run canParseURL es st).
Proof.
  revert st. induction es as [|e es IH]; intros st; [done|].
  cbn [turns run fold_left]. rewrite turn_is_step. apply IH.
Qed.

(** C9, amended: when every event is delivered in a turn of its own (it
    arrives, the awaited resolver settles and the component renders before
    the next event arrives, as for the clicks a browser delivers), at most
    one submission request is in flight at any time, one is in flight
    exactly when the busy flag is set, and while it is set a further press
    on the submit control is a no-op: the control is rendered disabled, no
    request is dispatched and nothing changes. *)
Theorem C9_single_flight_between_renders (es : list Event) :
  let c := turns canParseURL es (atRest initialState) in
  (pendingSubmits (now c) ≤ 1)%nat
  ∧ (pendingSubmits (now c) = 1%nat ↔ isSubmitting (now c) = true)
  ∧ isSubmitting (shown c) = isSubmitting (now c)
  ∧ awaiting c = []
  ∧ (isSubmitting (now c) = true →
     turn canParseURL SubmitPressed c = c
     ∧ requests (now (turn canParseURL SubmitPressed c)) = requests (now c)).
Proof.
  cbv zeta. rewrite turns_are_run.
  set (st := run canParseURL es initialState).
  assert (H : singleFlight st) by (by apply run_singleFlight).
  unfold singleFlight in H. cbn [now shown awaiting atRest].
  destruct (isSubmitting st) eqn:Hbusy; rewrite H.
  - split; [lia|]. split; [done|]. split; [done|]. split; [done|]. intros _.
    rewrite turn_is_step. cbn [step]. by rewrite Hbusy.
  - split; [lia|]. split; [split; intros; discriminate|].
    split; [done|]. split; [done|]. intros; discriminate.
Qed.

End Turns.

(** C9, as stated, fails: [onSubmit] has no guard of its own, and the
    submit control is disabled only once the component has rendered with
    the busy flag.  Two presses that arrive before a render (the launch
    draft, both in one turn) put two requests in flight; so does a press
    that arrives after the first request went out but before the render;
    and [form.handleSubmit (onSubmit)] called on a busy component sends a
    second request. *)
Lemma C9_two_submits_before_a_render :
  let c0 := atRest launchDraft in
  let both := moments httpLike
                [Arrives SubmitPressed; Arrives SubmitPressed;
                 ResolverSettled; ResolverSettled] c0 in
  let one := moments httpLike [Arrives SubmitPressed; ResolverSettled] c0 in
  let again := moments httpLike [Arrives SubmitPressed; ResolverSettled] one in
  pendingSubmits (now both) = 2%nat
  ∧ length (requests (now both)) = 2%nat
  ∧ isSubmitting (now one) = true
  ∧ pendingSubmits (now one) = 1%nat
  ∧ isSubmitting (shown one) = false
  ∧ pendingSubmits (now again) = 2%nat
  ∧ length (requests (now again)) = 2%nat
  ∧ pendingSubmits (handleSubmit httpLike (now one)) = 2%nat
  ∧ length (requests (handleSubmit httpLike (now one))) = 2%nat.
Proof. cbv zeta. repeat split; reflexivity. Qed.
